(** * visual-demographics: the notebook helpers of [functions.py]

    A shallow embedding of the helper module and the properties its
    specification states about it.

    Modelling conventions.
    - A cell of a table is [option val]: [None] is pandas' missing value
      (NaN), numbers are exact rationals ([Qc]; Python ints and floats
      are both numbers, so that [2000 == 2000.0] as in Python), strings
      are strings.
    - A [DataFrame] is its ordered list of column names together with its
      rows; a row is a finite map from column name to the value present
      there, a column without entry in the row holding NaN.  The default
      positional index of a frame is not represented.
    - Python exceptions are the [Raise] results of an error monad. *)

From Stdlib Require Import QArith Qcanon ZArith Sorted.
From stdpp Require Import gmap strings list fin_maps pretty numbers sorting.

Local Open Scope string_scope.
Local Open Scope list_scope.
Set Warnings "-clear-no-such-hyp".

(** ** Values, exceptions *)

Inductive val :=
  | VNum (q : Qc)
  | VStr (s : string).

#[global] Instance val_eq_dec : EqDecision val.
Proof. solve_decision. Defined.

Abbreviation cell := (option val).
Abbreviation row := (gmap string val).

Definition num (z : Z) : val := VNum (Qc_of_Z z).

Coercion VStr : string >-> val.

Inductive exn :=
  | KeyError (k : val)
  | AttributeError (k : string)
  | IndexError
  | MergeError
  | TypeError.

#[global] Instance exn_eq_dec : EqDecision exn.
Proof. solve_decision. Defined.

Inductive result (A : Type) :=
  | Ok (a : A)
  | Raise (e : exn).
Arguments Ok {A} a.
Arguments Raise {A} e.

#[global] Instance result_ret : MRet result := λ A a, Ok a.
#[global] Instance result_bind : MBind result := λ A B f m,
  match m with Ok a => f a | Raise e => Raise e end.

(** [for x in l: a = f(a, x)], stopping at the first exception. *)
Fixpoint foldM {A B} (f : A → B → result A) (a : A) (l : list B) : result A :=
  match l with
  | [] => Ok a
  | x :: l' => a' ← f a x; foldM f a' l'
  end.

(** [[f(x) for x in l]], stopping at the first exception. *)
Fixpoint forM {A B} (f : A → result B) (l : list A) : result (list B) :=
  match l with
  | [] => Ok []
  | x :: l' => y ← f x; ys ← forM f l'; Ok (y :: ys)
  end.

(** ** Code/name lookup

    A code mapping is a Python dict from country code to country name;
    [dictionary.items()] is its list of (key, item) pairs in iteration
    order.  The result [None] is Python's [None]. *)

Fixpoint country_to_code (country : string) (dictionary : list (string * string))
  : option string :=
  match dictionary with
  | [] => None
  | (key, item) :: rest =>
      if decide (item = country) then Some key
      else country_to_code country rest
  end.

Fixpoint code_to_country (country_code : string) (dictionary : list (string * string))
  : option string :=
  match dictionary with
  | [] => None
  | (key, item) :: rest =>
      if decide (key = country_code) then Some item
      else code_to_country country_code rest
  end.

(** ** Data frames and the pandas operations the module calls *)

Record DataFrame := mkDataFrame {
  columns : list string;
  rows : list row;
}.

(** [df.size]: number of cells. *)
Definition size_of (df : DataFrame) : nat :=
  (length (rows df) * length (columns df))%nat.

(** Writing a cell: a NaN is stored as the absence of an entry. *)
Definition set_cell (c : string) (v : cell) (r : row) : row :=
  partial_alter (λ _, v) c r.

(** Column list after an assignment [df[c] = ...]: a new column goes last. *)
Definition add_column (c : string) (cols : list string) : list string :=
  if decide (c ∈ cols) then cols else cols ++ [c].

(** [df[c] = np.nan] *)
Definition assign_nan (c : string) (df : DataFrame) : DataFrame :=
  {| columns := add_column c (columns df);
     rows := delete c <$> rows df |}.

(** [df[c] = df[src]] *)
Definition assign_from (c src : string) (df : DataFrame) : result DataFrame :=
  if decide (src ∈ columns df) then
    Ok {| columns := add_column c (columns df);
          rows := (λ r, set_cell c (r !! src) r) <$> rows df |}
  else Raise (KeyError src).

(** [df.drop(columns=[c], inplace=True)] *)
Definition drop (c : string) (df : DataFrame) : result DataFrame :=
  if decide (c ∈ columns df) then
    Ok {| columns := filter (λ x, x ≠ c) (columns df);
          rows := delete c <$> rows df |}
  else Raise (KeyError c).

(** [df[c].fillna(df[src], inplace=True)]: the NaN cells of column [c]
    take the value column [src] has in the same row.  The in-place
    update of the column reaches the frame, as the source's comment
    ("Copy added values to column 'temp'") expects. *)
Definition fillna_from (c src : string) (df : DataFrame) : result DataFrame :=
  if decide (c ∈ columns df) then
    if decide (src ∈ columns df) then
      Ok {| columns := columns df;
            rows := (λ r, match r !! c with
                          | Some _ => r
                          | None => set_cell c (r !! src) r
                          end) <$> rows df |}
    else Raise (KeyError src)
  else Raise (KeyError c).

(** Two rows agree on the join columns; as in pandas, NaN keys match. *)
Definition agree (on : list string) (r1 r2 : row) : Prop :=
  Forall (λ c, r1 !! c = r2 !! c) on.

#[global] Instance agree_dec on r1 r2 : Decision (agree on r1 r2).
Proof. unfold agree. apply _. Defined.

(** [pd.merge(left, right, how="outer")]: the join columns are the
    columns the frames share; every pair of agreeing rows gives a row,
    a left row without partner is kept with NaN in the new columns, and
    so is a right row without partner.  The rows are listed left rows
    first, unmatched right rows last: pandas orders the result of an
    outer join by join key, and nothing below depends on the order. *)
Definition merge_outer (left right : DataFrame) : result DataFrame :=
  let on := filter (λ c, c ∈ columns right) (columns left) in
  if decide (on = []) then Raise MergeError
  else
    Ok {| columns := columns left ++ filter (λ c, c ∉ columns left) (columns right);
          rows :=
            (rl ← rows left;
             match filter (agree on rl) (rows right) with
             | [] => [rl]
             | partners => (λ rr, rl ∪ rr) <$> partners
             end)
            ++ filter (λ rr, Forall (λ rl, ¬ agree on rl rr) (rows left)) (rows right) |}.

(** [row.loc[c]] on a row of a frame with columns [cols]. *)
Definition loc (cols : list string) (r : row) (c : string) : result cell :=
  if decide (c ∈ cols) then Ok (r !! c) else Raise (KeyError c).

(** [year_list[i]] *)
Definition item (year_list : list Z) (i : nat) : result Z :=
  match year_list !! i with
  | Some y => Ok y
  | None => Raise IndexError
  end.

(** ** Panel joiner *)

(** The frame [pd.DataFrame(data=dict_temp)] of one country.  In the
    dict literal a later key replaces the value of an equal earlier key
    and keeps its place. *)
Definition dftemp (key : string) (rowcode : cell) (years : list Z) (vals : list cell)
  : DataFrame :=
  {| columns := add_column key ["country_code"; "year"];
     rows := zip_with (λ year v,
               set_cell key v
                 (set_cell "year" (Some (num year))
                    (set_cell "country_code" rowcode ∅)))
               years vals |}.

(** Body of the loop over the rows of one indicator table. *)
Definition join_row (key : string) (year_list : list Z) (frame_columns : list string)
    (data : DataFrame) (r : row) : result DataFrame :=
  rowcode ← loc frame_columns r "country_code";
  y0 ← item year_list 0;
  y1 ← item year_list 1;
  let years := seqZ y0 (y1 + 1 - y0) in
  vals ← forM (λ year, loc frame_columns r (pretty year)) years;
  data ← merge_outer data (dftemp key rowcode years vals);
  data ← fillna_from "temp" key data;
  drop key data.

(** Body of the loop over the indicator tables. *)
Definition join_table (year_list : list Z) (data : DataFrame)
    (entry : string * DataFrame) : result DataFrame :=
  let '(key, frame) := entry in
  let data := assign_nan "temp" data in
  data ← foldM (join_row key year_list (columns frame)) data (rows frame);
  data ← assign_from key "temp" data;
  drop "temp" data.

Definition join_data (dictionary : list (string * DataFrame)) (data : DataFrame)
    (year_list : list Z) : result DataFrame :=
  foldM (join_table year_list) data dictionary.

(** ** Country/continent extractor *)

(** Order used by [sort_values] and by the sorted group keys of
    [groupby]: numbers by value, strings lexicographically, NaN last
    ([na_position="last"]).  Numbers and strings are not comparable in
    Python; [sort_values] checks that before it sorts, so the verdict
    on such a pair is never used. *)
Definition cell_le (a b : cell) : Prop :=
  match a, b with
  | _, None => True
  | None, Some _ => False
  | Some (VNum x), Some (VNum y) => (x ≤ y)%Qc
  | Some (VStr s), Some (VStr t) => String.leb s t
  | Some (VNum _), Some (VStr _) => True
  | Some (VStr _), Some (VNum _) => False
  end.

#[global] Instance cell_le_dec a b : Decision (cell_le a b).
Proof. destruct a as [[]|], b as [[]|]; simpl; apply _. Defined.

Definition is_num (c : cell) : bool :=
  match c with Some (VNum _) => true | _ => false end.
Definition is_str (c : cell) : bool :=
  match c with Some (VStr _) => true | _ => false end.

(** A column holding both numbers and strings cannot be sorted. *)
Definition comparable (l : list cell) : bool :=
  negb (existsb is_num l && existsb is_str l).

(** [df.sort_values(by=[c])] *)
Definition sort_values (c : string) (df : DataFrame) : result DataFrame :=
  if decide (c ∈ columns df) then
    if comparable ((.!! c) <$> rows df) then
      Ok {| columns := columns df;
            rows := merge_sort (λ r1 r2, cell_le (r1 !! c) (r2 !! c)) (rows df) |}
    else Raise TypeError
  else Raise (KeyError c).

(** A frame whose index is one of its former columns; [frame_name] is
    the attribute [name] the source sets on it. *)
Record IndexedFrame := mkIndexedFrame {
  frame_name : val;
  index_name : string;
  index : list cell;
  body : DataFrame;
}.

(** [df.name = name; df.set_index(c, inplace=True)] *)
Definition set_index (name : val) (c : string) (df : DataFrame) : result IndexedFrame :=
  if decide (c ∈ columns df) then
    Ok {| frame_name := name;
          index_name := c;
          index := (.!! c) <$> rows df;
          body := {| columns := filter (λ x, x ≠ c) (columns df);
                     rows := delete c <$> rows df |} |}
  else Raise (KeyError c).

(** [df.country_code]: attribute access to a column. *)
Definition getattr (df : DataFrame) (c : string) : result (list cell) :=
  if decide (c ∈ columns df) then Ok ((.!! c) <$> rows df)
  else Raise (AttributeError c).

(** [df[c]] *)
Definition getitem (df : DataFrame) (c : string) : result (list cell) :=
  if decide (c ∈ columns df) then Ok ((.!! c) <$> rows df)
  else Raise (KeyError c).

(** [df[mask]] for the mask [df.country_code == country_code]. *)
Definition select_eq (c : string) (v : val) (df : DataFrame) : DataFrame :=
  {| columns := columns df;
     rows := filter (λ r, r !! c = Some v) (rows df) |}.

Definition country_stats (country_code : val) (data : DataFrame) : result IndexedFrame :=
  _ ← getattr data "country_code";
  data ← sort_values "Year" (select_eq "country_code" country_code data);
  set_index country_code "Year" data.

(** Elementwise product of two cells; a NaN operand gives NaN.  Cells
    holding strings are not numbers: they are reported as a
    [TypeError], pandas' own treatment of string columns is not
    modelled. *)
Definition mul_cell (a b : cell) : result cell :=
  match a, b with
  | Some (VStr _), _ | _, Some (VStr _) => Raise TypeError
  | Some (VNum x), Some (VNum y) => Ok (Some (VNum (x * y)))
  | _, _ => Ok None
  end.

Fixpoint mul_series (l1 l2 : list cell) : result (list cell) :=
  match l1, l2 with
  | a :: l1', b :: l2' => c ← mul_cell a b; cs ← mul_series l1' l2'; Ok (c :: cs)
  | _, _ => Ok []
  end.

(** [series.sum()]: NaN cells are skipped, the empty sum is 0. *)
Fixpoint sum_series (l : list cell) : result Qc :=
  match l with
  | [] => Ok (Q2Qc 0)
  | None :: l' => sum_series l'
  | Some (VNum x) :: l' => s ← sum_series l'; Ok (x + s)%Qc
  | Some (VStr _) :: _ => Raise TypeError
  end.

(** Quotient of two sums.  Over a zero sum floating point gives an
    infinity or NaN, not a number: that is the missing cell here. *)
Definition div_sums (a b : Qc) : cell :=
  if decide (b = Q2Qc 0) then None else Some (VNum (a / b)%Qc).

Definition wavg (group : DataFrame) (metric_name weight_name : string) : result cell :=
  metric ← getitem group metric_name;
  weight ← getitem group weight_name;
  products ← mul_series metric weight;
  total ← sum_series products;
  total_weight ← sum_series weight;
  Ok (div_sums total total_weight).

(** [df.dropna(subset=cols)] *)
Definition dropna (subset : list string) (df : DataFrame) : result DataFrame :=
  match filter (λ c, c ∉ columns df) subset with
  | c :: _ => Raise (KeyError c)
  | [] => Ok {| columns := columns df;
                rows := filter (λ r, Forall (λ c, is_Some (r !! c)) subset) (rows df) |}
  end.

(** Key of a row under [groupby([c1, c2])]; rows with a NaN key belong
    to no group. *)
Definition group_key (c1 c2 : string) (r : row) : option (val * val) :=
  v1 ← r !! c1; v2 ← r !! c2; Some (v1, v2).

(** Lexicographic order of the group keys. *)
Definition key_le (k1 k2 : val * val) : Prop :=
  if decide (k1.1 = k2.1) then cell_le (Some k1.2) (Some k2.2)
  else cell_le (Some k1.1) (Some k2.1).

#[global] Instance key_le_dec k1 k2 : Decision (key_le k1 k2).
Proof. unfold key_le. destruct (decide (k1.1 = k2.1)); apply _. Defined.

(** [df.groupby([c1, c2]).apply(f)]: the series of the values of [f]
    on the groups, indexed by the group keys in sorted order. *)
Definition groupby_apply (c1 c2 : string) (f : DataFrame → result cell)
    (df : DataFrame) : result (list ((val * val) * cell)) :=
  if decide (c1 ∈ columns df) then
    if decide (c2 ∈ columns df) then
      forM (λ k,
              v ← f {| columns := columns df;
                       rows := filter (λ r, group_key c1 c2 r = Some k) (rows df) |};
              Ok (k, v))
           (merge_sort key_le (remove_dups (omap (group_key c1 c2) (rows df))))
    else Raise (KeyError c2)
  else Raise (KeyError c1).

(** [series[k]] on a series with a two-level index: the entries whose
    first level is [k], indexed by the second level. *)
Definition select_level (k : val) (s : list ((val * val) * cell))
  : result (list (val * cell)) :=
  match filter (λ e, e.1.1 = k) s with
  | [] => Raise (KeyError k)
  | chosen => Ok ((λ e, (e.1.2, e.2)) <$> chosen)
  end.

Definition continent_stats (cont_code : val) (data : DataFrame) (stat : string)
  : result (list (val * cell)) :=
  data1 ← dropna [stat; "Population"] data;
  groups ← groupby_apply "cont_code" "Year" (λ group, wavg group stat "Population") data1;
  select_level cont_code groups.

(** ** Bar chart renderer

    What a renderer does is the list of calls it makes to the plotting
    libraries and to [print], in order, together with the way it ends.
    What happens inside seaborn and matplotlib is not modelled: the
    bars [ax.patches] that [sns.barplot] leaves on the axes are a
    parameter. *)

Record patch := mkPatch {
  get_width : Qc;
  get_height : Qc;
  get_y : Qc;
}.

Inductive event :=
  | SetTheme (style : string)
  | Subplots (width height : Z)
  | LightPalette (color : string) (n_colors : nat)
  | Barplot (x y : string) (data : DataFrame) (reversed_palette : bool)
  | AxSet (xlabel ylabel title : string)
  | Text (x : cell) (y : Qc) (two_decimals_of : Qc) (ha va : string)
  | Print (s : string).

Definition newline : string := String (Ascii.ascii_of_nat 10) EmptyString.

Definition empty_notice : string := newline +:+ newline +:+ "The dataset is empty!".

(** [series.max()]: NaN cells are skipped, NaN when nothing is left. *)
Fixpoint max_series (l : list cell) : result cell :=
  match l with
  | [] => Ok None
  | None :: l' => max_series l'
  | Some (VStr _) :: _ => Raise TypeError
  | Some (VNum x) :: l' =>
      m ← max_series l';
      match m with
      | Some (VNum y) => Ok (Some (VNum (if decide (x ≤ y)%Qc then y else x)))
      | _ => Ok (Some (VNum x))
      end
  end.

(** [width + 0.01 * data[stat].max()] *)
Definition label_x (data : DataFrame) (stat : string) (width : Qc) : result cell :=
  column ← getitem data stat;
  m ← max_series column;
  match m with
  | Some (VNum y) => Ok (Some (VNum (width + Q2Qc (1 # 100) * y)%Qc))
  | _ => Ok None
  end.

(** The calls of a loop body that may fail: the events up to the first
    exception, and the exception. *)
Fixpoint emit (l : list (result event)) : list event * result () :=
  match l with
  | [] => ([], Ok ())
  | Ok e :: l' => let '(es, r) := emit l' in (e :: es, r)
  | Raise e :: _ => ([], Raise e)
  end.

Section bar_chart.
Variable ax_patches : DataFrame → string → list patch.

Definition plot_country_bars (data : DataFrame) (year : Z) (stat : string)
  : list event * result () :=
  if decide (size_of data ≠ 0%nat) then
    let '(texts, r) :=
      emit ((λ p,
               x ← label_x data stat (get_width p);
               Ok (Text x (get_y p + Q2Qc (55 # 100) * get_height p)%Qc
                        (get_width p) "left" "center"))
            <$> ax_patches data stat) in
    (([ SetTheme "whitegrid";
       Subplots 6 55;
       LightPalette "seagreen" (size_of data);
       Barplot stat "country_name" data true;
       AxSet (stat +:+ " in " +:+ pretty year) "Country"
             (stat +:+ " in " +:+ pretty year) ] ++ texts)%list, r)
  else ([Print empty_notice], Ok ()).
End bar_chart.

(** ** Renderers that make several plotting calls

    A renderer is followed through the calls it makes, in order, up to
    its return or to the exception that ends it.  Besides the
    exceptions of the library calls there is the one Python raises for
    a local variable that is read before any assignment.  What seaborn
    and matplotlib draw from their arguments is not modelled, nor a
    failure inside them; [plot_world_map] leaves all of its work to
    geopandas and is not modelled. *)

Inductive failure :=
  | Exception (e : exn)
  | UnboundLocalError (name : string).

Definition action (E A : Type) : Type := list E * (failure + A).

#[global] Instance action_ret {E} : MRet (action E) := λ A a, ([], inr a).

#[global] Instance action_bind {E} : MBind (action E) := λ A B f m,
  match m with
  | (es, inl e) => (es, inl e)
  | (es, inr a) => let '(es', r) := f a in (es ++ es', r)
  end.

(** A call to the plotting library. *)
Definition call {E} (e : E) : action E () := ([e], inr ()).

(** A computation that may raise. *)
Definition lift {E A} (r : result A) : action E A :=
  ([], match r with Ok a => inr a | Raise e => inl (Exception e) end).

(** [for x in l: f(x)] *)
Fixpoint for_each {E A} (f : A → action E ()) (l : list A) : action E () :=
  match l with
  | [] => mret ()
  | x :: l' => f x ;; for_each f l'
  end.

(** [l[i]] *)
Definition list_item {A} (l : list A) (i : nat) : result A :=
  match l !! i with
  | Some x => Ok x
  | None => Raise IndexError
  end.

(** ** Grid of regression plots *)

(** The array [plt.subplots(nrows, ncols)] returns is squeezed: a
    single axes object for one cell, a one-dimensional array for one
    row or one column, a two-dimensional array otherwise. *)
Inductive axes_array :=
  | OneAxes
  | AxesRow (n : nat)
  | AxesGrid (nrows ncols : nat).

Definition subplots_axes (nrows ncols : nat) : axes_array :=
  if decide (nrows = 1%nat) then
    if decide (ncols = 1%nat) then OneAxes else AxesRow ncols
  else if decide (ncols = 1%nat) then AxesRow nrows
  else AxesGrid nrows ncols.

(** [axes[i, j]]: two indices want a two-dimensional array. *)
Definition axes_item (axes : axes_array) (i j : nat) : result (nat * nat) :=
  match axes with
  | OneAxes => Raise TypeError
  | AxesRow _ => Raise IndexError
  | AxesGrid nrows ncols =>
      if decide (i < nrows ∧ j < ncols)%nat then Ok (i, j) else Raise IndexError
  end.

Inductive grid_event :=
  | GridSubplots (nrows ncols : nat) (width height : Z)
  | GridAdjust (hspace : Qc)
  | GridRegplot (y x : string) (data : DataFrame) (ax : nat * nat) (marker : string)
  | GridXlabel (s : string)
  | GridYlabel (s : string)
  | GridAxisOff (ax : nat * nat).

(** [int(n / 3)] is the quotient for the lengths of lists. *)
Definition plot_multi_predictors (data : DataFrame) (response : string)
    (predictors : list string) : action grid_event () :=
  let length := length predictors in
  let nrows := (length / 3 + 1)%nat in
  call (GridSubplots nrows 3 20 20);;
  let axes := subplots_axes nrows 3 in
  call (GridAdjust (Q2Qc (4 # 10)));;
  for_each (λ i,
              predictor ← lift (list_item predictors i);
              ax ← lift (axes_item axes (i / 3) (i mod 3));
              call (GridRegplot response predictor data ax ".");;
              call (GridXlabel predictor);;
              call (GridYlabel response))
           (seq 0 length);;
  for_each (λ j,
              ax ← lift (axes_item axes (length / 3) j);
              call (GridAxisOff ax))
           (seq (length mod 3) (3 - length mod 3)).

(** ** Two-line chart of a country or a continent *)

(** A series: index labels and values. *)
Abbreviation series := (list (cell * cell)).

(** [frame[c]] on the frame [country_stats] returns. *)
Definition frame_column (frame : IndexedFrame) (c : string) : result series :=
  if decide (c ∈ columns (body frame)) then
    Ok (zip (index frame) ((.!! c) <$> rows (body frame)))
  else Raise (KeyError c).

(** [d[k]] on a dict. *)
Definition dict_item (d : list (string * string)) (k : string) : result string :=
  match list_find (λ entry, entry.1 = k) d with
  | Some (_, entry) => Ok entry.2
  | None => Raise (KeyError k)
  end.

(** Reading a local variable. *)
Definition read_local {E A} (name : string) (v : option A) : action E A :=
  ([], match v with Some a => inr a | None => inl (UnboundLocalError name) end).

Inductive area_event :=
  | AreaFigure (width height : Z)
  | AreaTitle (s : string)
  | AreaAddSubplot (position : Z)
  | AreaGrid (twin visible : bool)
  | AreaXlabel (s : string)
  | AreaYlabel (s : string)
  | AreaLineplot (data : series) (color label : string)
  | AreaTwinx
  | AreaLegend
  | AreaRemoveLegend (twin : bool)
  | AreaShow.

Definition area_title (m0 m1 name : string) (y0 y1 : Z) : string :=
  m0 +:+ " and " +:+ m1 +:+ " in " +:+ name +:+ " in " +:+ pretty y0 +:+ "-" +:+ pretty y1.

Definition plot_area (data : DataFrame) (code : string) (metrics : list string)
    (code_dicts : list (list (string * string))) (years : list Z)
  : action area_event () :=
  call (AreaFigure 9 5);;
  countries ← lift (list_item code_dicts 0);
  bound ←
    (if decide (code ∈ countries.*1) then
       frame1 ← lift (country_stats code data);
       m0 ← lift (list_item metrics 0);
       data1 ← lift (frame_column frame1 m0);
       frame2 ← lift (country_stats code data);
       m1 ← lift (list_item metrics 1);
       data2 ← lift (frame_column frame2 m1);
       t0 ← lift (list_item metrics 0);
       t1 ← lift (list_item metrics 1);
       name ← lift (dict_item countries code);
       y0 ← lift (list_item years 0);
       y1 ← lift (list_item years 1);
       call (AreaTitle (area_title t0 t1 name y0 y1));;
       mret (Some data1, Some data2)
     else
       continents ← lift (list_item code_dicts 1);
       if decide (code ∈ continents.*1) then
         m0 ← lift (list_item metrics 0);
         data1 ← lift (continent_stats code data m0);
         m1 ← lift (list_item metrics 1);
         data2 ← lift (continent_stats code data m1);
         t0 ← lift (list_item metrics 0);
         t1 ← lift (list_item metrics 1);
         name ← lift (dict_item continents code);
         y0 ← lift (list_item years 0);
         y1 ← lift (list_item years 1);
         call (AreaTitle (area_title t0 t1 name y0 y1));;
         mret (Some (prod_map Some id <$> data1), Some (prod_map Some id <$> data2))
       else mret (None, None));
  call (AreaAddSubplot 111);;
  call (AreaGrid false false);;
  call (AreaXlabel "Year");;
  m0 ← lift (list_item metrics 0);
  call (AreaYlabel m0);;
  data1 ← read_local "data1" bound.1;
  label1 ← lift (list_item metrics 0);
  call (AreaLineplot data1 "r" label1);;
  call AreaTwinx;;
  call (AreaGrid true false);;
  data2 ← read_local "data2" bound.2;
  label2 ← lift (list_item metrics 1);
  call (AreaLineplot data2 "b" label2);;
  m1 ← lift (list_item metrics 1);
  call (AreaYlabel m1);;
  call AreaLegend;;
  call (AreaRemoveLegend false);;
  call (AreaRemoveLegend true);;
  call AreaShow.

(** * Properties *)

(** ** The error monad *)

Lemma bind_Ok {A B} (m : result A) (f : A → result B) b :
  m ≫= f = Ok b ↔ ∃ a, m = Ok a ∧ f a = Ok b.
Proof.
  destruct m as [a|e]; simpl; split.
  - intros Hf. by exists a.
  - by intros (? & [= <-] & ?).
  - done.
  - by intros (? & ? & _).
Qed.




(** ** Code/name lookup *)

Section lookup.
Implicit Types (mapping : list (string * string)) (name code key : string).

Lemma country_to_code_Some mapping name key :
  country_to_code name mapping = Some key ↔
  ∃ before after, mapping = before ++ (key, name) :: after ∧ name ∉ before.*2.
Proof.
  induction mapping as [|[k v] rest IH]; simpl.
  - split; [done|]. intros ([|? ?] & ? & ? & _); done.
  - destruct (decide (v = name)) as [->|Hne].
    + split.
      * intros [= ->]. exists [], rest. split; [done|]. apply not_elem_of_nil.
      * intros ([|[k' v'] before] & after & Heq & Hnot); simplify_eq/=; [done|].
        exfalso. apply Hnot. left.
    + rewrite IH. split.
      * intros (before & after & -> & Hnot).
        exists ((k, v) :: before), after. split; [done|].
        simpl. rewrite not_elem_of_cons. done.
      * intros ([|[k' v'] before] & after & Heq & Hnot); simplify_eq/=.
        exists before, after. split; [done|].
        by apply not_elem_of_cons in Hnot as [_ ?].
Qed.

Lemma country_to_code_None mapping name :
  country_to_code name mapping = None ↔ name ∉ mapping.*2.
Proof.
  induction mapping as [|[k v] rest IH]; simpl.
  - split; [intros _; apply not_elem_of_nil | done].
  - rewrite not_elem_of_cons. destruct (decide (v = name)); naive_solver.
Qed.

Lemma code_to_country_lookup mapping code :
  code_to_country code mapping = (list_to_map mapping : gmap string string) !! code.
Proof.
  induction mapping as [|[k v] rest IH]; simpl; [done|].
  destruct (decide (k = code)) as [->|Hne].
  - by rewrite lookup_insert_eq.
  - by rewrite lookup_insert_ne.
Qed.

Lemma code_to_country_None mapping code :
  code_to_country code mapping = None ↔ code ∉ mapping.*1.
Proof. rewrite code_to_country_lookup. symmetry. apply not_elem_of_list_to_map. Qed.

(** C8: [country_to_code] returns the first key, in iteration order,
    whose value equals the name, and [None] when no value matches;
    [code_to_country] returns the value stored at the key, and [None]
    when the key is absent.  Both are total: a failed lookup is the
    sentinel, never an exception. *)
Theorem lookups_first_match_or_sentinel mapping name code :
  (∀ key, country_to_code name mapping = Some key ↔
     ∃ before after, mapping = before ++ (key, name) :: after ∧ name ∉ before.*2) ∧
  (country_to_code name mapping = None ↔ name ∉ mapping.*2) ∧
  code_to_country code mapping = (list_to_map mapping : gmap string string) !! code ∧
  (code_to_country code mapping = None ↔ code ∉ mapping.*1).
Proof.
  split_and!.
  - intros key. apply country_to_code_Some.
  - apply country_to_code_None.
  - apply code_to_country_lookup.
  - apply code_to_country_None.
Qed.

(** C5: in a mapping (a dict: no key occurs twice), looking up the code
    of a name that occurs among the values and then the name of that
    code gives the name back.  (The bind passes the result of the first
    lookup to the second; a [None] would match no key and give [None].) *)
Theorem lookup_round_trip mapping name :
  NoDup mapping.*1 → name ∈ mapping.*2 →
  country_to_code name mapping ≫= (λ code, code_to_country code mapping) = Some name.
Proof.
  intros Hnodup Hin.
  destruct (country_to_code name mapping) as [key|] eqn:Hkey.
  - simpl. rewrite code_to_country_lookup.
    apply country_to_code_Some in Hkey as (before & after & -> & _).
    apply elem_of_list_to_map; [done|]. set_solver.
  - by apply country_to_code_None in Hkey.
Qed.
End lookup.

Definition nordic_codes : list (string * string) :=
  [("FI", "Finland"); ("SE", "Sweden"); ("NO", "Norway")].

Lemma lookup_round_trip_witness :
  NoDup nordic_codes.*1 ∧ "Sweden" ∈ nordic_codes.*2 ∧
  country_to_code "Sweden" nordic_codes ≫= (λ code, code_to_country code nordic_codes)
    = Some "Sweden".
Proof.
  assert (H1 : NoDup nordic_codes.*1) by compute_done.
  assert (H2 : "Sweden" ∈ nordic_codes.*2) by compute_done.
  exact (conj H1 (conj H2 (lookup_round_trip nordic_codes "Sweden" H1 H2))).
Defined.

(** ** Bar chart on an empty table *)

Lemma size_of_zero data :
  size_of data = 0%nat ↔ rows data = [] ∨ columns data = [].
Proof.
  unfold size_of. rewrite Nat.eq_mul_0.
  by rewrite !length_zero_iff_nil.
Qed.

(** C7: on an empty table (no rows, or no columns: [data.size] is 0) the
    bar chart renderer makes no plotting call at all; its only effect is
    the printed notice, and it ends normally. *)
Theorem plot_country_bars_empty ax_patches data year stat :
  rows data = [] ∨ columns data = [] →
  plot_country_bars ax_patches data year stat = ([Print empty_notice], Ok ()).
Proof.
  intros Hempty%size_of_zero. unfold plot_country_bars.
  destruct (decide (size_of data ≠ 0%nat)) as [Hne|_]; [|done].
  by destruct Hne.
Qed.

Definition no_countries : DataFrame :=
  {| columns := ["country_name"; "GDP"]; rows := [] |}.

Lemma plot_country_bars_empty_witness :
  plot_country_bars (λ _ _, []) no_countries 2000 "GDP" = ([Print empty_notice], Ok ()).
Proof. apply plot_country_bars_empty. left. reflexivity. Defined.

(** ** Panel joiner: no table, missing year columns *)

(** C6: without indicator tables the loop body never runs, and the base
    panel comes back as it went in, rows and columns. *)
Theorem join_data_no_tables data year_list :
  join_data [] data year_list = Ok data.
Proof. reflexivity. Qed.

Lemma loc_in cols r c : c ∈ cols → loc cols r c = Ok (r !! c).
Proof. intros. unfold loc. by case_decide. Qed.

Lemma loc_not_in cols r c : c ∉ cols → loc cols r c = Raise (KeyError c).
Proof. intros. unfold loc. by case_decide. Qed.

Lemma forM_loc_missing cols r years (y : Z) :
  y ∈ years → pretty y ∉ cols →
  ∃ c, forM (λ year, loc cols r (pretty year)) years = Raise (KeyError c).
Proof.
  induction years as [|y' years IH]; intros Hin Hmiss.
  - by inv Hin.
  - cbn [forM].
    destruct (decide (pretty y' ∈ cols)) as [Hy'|Hy'].
    + rewrite (loc_in _ _ _ Hy'). simpl.
      apply elem_of_cons in Hin as [->|Hin]; [done|].
      destruct (IH Hin Hmiss) as [c ->]. by eexists.
    + rewrite (loc_not_in _ _ _ Hy'). by eexists.
Qed.

(** The first row of a table that lacks a year column stops the join. *)
Lemma join_row_missing key y0 y1 cols data r (y : Z) :
  (y0 ≤ y ≤ y1)%Z → pretty y ∉ cols →
  ∃ c, join_row key [y0; y1] cols data r = Raise (KeyError c).
Proof.
  intros Hy Hmiss. unfold join_row.
  destruct (loc cols r "country_code") as [rowcode|e] eqn:Hcode; simpl.
  - destruct (forM_loc_missing cols r (seqZ y0 (y1 + 1 - y0)) y) as [c ->]; [|done|].
    + apply elem_of_seqZ. lia.
    + by eexists.
  - unfold loc in Hcode. case_decide; simplify_eq. by eexists.
Qed.

Lemma join_table_missing key frame y0 y1 data (y : Z) :
  rows frame ≠ [] → (y0 ≤ y ≤ y1)%Z → pretty y ∉ columns frame →
  ∃ c, join_table [y0; y1] data (key, frame) = Raise (KeyError c).
Proof.
  intros Hrows Hy Hmiss. unfold join_table.
  destruct (rows frame) as [|r rest]; [done|]. simpl.
  destruct (join_row_missing key y0 y1 (columns frame) (assign_nan "temp" data) r y)
    as [c ->]; [done..|].
  by eexists.
Qed.

(** The joiner never returns when a table with a row lacks a column. *)
Lemma join_data_missing dictionary key frame y0 y1 data (y : Z) :
  (key, frame) ∈ dictionary →
  rows frame ≠ [] → (y0 ≤ y ≤ y1)%Z → pretty y ∉ columns frame →
  ∃ e, join_data dictionary data [y0; y1] = Raise e.
Proof.
  intros Hin Hrows Hy Hmiss. unfold join_data. revert data.
  induction dictionary as [|entry rest IH]; intros data.
  - by inv Hin.
  - simpl. apply elem_of_cons in Hin as [<-|Hin].
    + destruct (join_table_missing key frame y0 y1 data y) as [c ->]; [done..|].
      by eexists.
    + destruct (join_table [y0; y1] data entry) as [data'|e]; simpl; [|by eexists].
      by apply IH.
Qed.

(** A result that is a value satisfying [P], or a [KeyError]. *)
Definition value_or_KeyError {A} (P : A → Prop) (m : result A) : Prop :=
  match m with
  | Ok a => P a
  | Raise (KeyError _) => True
  | Raise _ => False
  end.

Lemma value_or_KeyError_bind {A B} (P : A → Prop) (Q : B → Prop) m (f : A → result B) :
  value_or_KeyError P m → (∀ a, P a → value_or_KeyError Q (f a)) →
  value_or_KeyError Q (m ≫= f).
Proof. destruct m as [a|[]]; simpl; auto. Qed.

Lemma value_or_KeyError_foldM {A B} (P : A → Prop) (f : A → B → result A) l a :
  P a → (∀ a x, P a → value_or_KeyError P (f a x)) →
  value_or_KeyError P (foldM f a l).
Proof.
  intros Ha Hf. revert a Ha. induction l as [|x l IH]; intros a Ha; simpl; [done|].
  eapply value_or_KeyError_bind; [by apply Hf|]. auto.
Qed.

Lemma value_or_KeyError_forM_loc cols r (years : list Z) :
  value_or_KeyError (λ _, True) (forM (λ year, loc cols r (pretty year)) years).
Proof.
  induction years as [|y years IH]; cbn [forM]; [done|].
  destruct (decide (pretty y ∈ cols)) as [Hy|Hy].
  - rewrite (loc_in _ _ _ Hy). simpl. by destruct (forM _ years) as [?|[]].
  - by rewrite (loc_not_in _ _ _ Hy).
Qed.

(** A frame that has one of the columns every per-country frame has. *)
Definition keyed (data : DataFrame) : Prop :=
  "country_code" ∈ columns data ∨ "year" ∈ columns data.

Lemma elem_of_add_column c c' cols :
  c ∈ add_column c' cols ↔ c ∈ cols ∨ c = c'.
Proof.
  unfold add_column. case_decide; [|set_solver].
  split; [by left|]. by intros [?| ->].
Qed.

Lemma join_row_keyed key y0 y1 cols data r :
  keyed data → value_or_KeyError keyed (join_row key [y0; y1] cols data r).
Proof.
  intros Hkeyed. unfold join_row.
  eapply (value_or_KeyError_bind (λ _, True)).
  { unfold loc. by case_decide. }
  intros rowcode _. simpl.
  eapply (value_or_KeyError_bind (λ _, True)); [apply value_or_KeyError_forM_loc|].
  intros vals _.
  set (right := dftemp key rowcode (seqZ y0 (y1 + 1 - y0)) vals).
  assert (Hcc : "country_code" ∈ columns right)
    by (apply elem_of_add_column; left; set_solver).
  assert (Hyear : "year" ∈ columns right)
    by (apply elem_of_add_column; left; set_solver).
  eapply (value_or_KeyError_bind
            (λ d, "country_code" ∈ columns d ∧ "year" ∈ columns d)).
  { unfold merge_outer. case_decide as Hon; simpl.
    - exfalso. destruct Hkeyed as [Hin|Hin].
      + by apply (filter_nil_not_elem_of _ _ "country_code" Hon).
      + by apply (filter_nil_not_elem_of _ _ "year" Hon).
    - rewrite !elem_of_app, !list_elem_of_filter.
      split.
      + destruct (decide ("country_code" ∈ columns data)); auto.
      + destruct (decide ("year" ∈ columns data)); auto. }
  intros merged [Hcc' Hyear'].
  eapply (value_or_KeyError_bind
            (λ d, "country_code" ∈ columns d ∧ "year" ∈ columns d)).
  { unfold fillna_from. repeat case_decide; simpl; done. }
  intros filled [Hcc'' Hyear''].
  unfold drop. case_decide; simpl; [|done].
  unfold keyed. simpl. rewrite !list_elem_of_filter.
  destruct (decide ("country_code" = key)) as [<-|?]; [right|left]; done.
Qed.

Lemma join_table_keyed y0 y1 data entry :
  keyed data → value_or_KeyError keyed (join_table [y0; y1] data entry).
Proof.
  intros Hkeyed. destruct entry as [key frame]. unfold join_table.
  eapply (value_or_KeyError_bind keyed).
  { apply value_or_KeyError_foldM.
    - unfold keyed, assign_nan. simpl. rewrite !elem_of_add_column.
      destruct Hkeyed; auto.
    - intros. by apply join_row_keyed. }
  intros data1 Hkeyed1.
  eapply (value_or_KeyError_bind keyed).
  { unfold assign_from. case_decide; simpl; [|done].
    unfold keyed. simpl. rewrite !elem_of_add_column. destruct Hkeyed1; auto. }
  intros data2 Hkeyed2.
  unfold drop. case_decide; simpl; [|done].
  unfold keyed. simpl. rewrite !list_elem_of_filter.
  destruct Hkeyed2; [left|right]; done.
Qed.

Lemma join_data_keyed dictionary y0 y1 data :
  keyed data → value_or_KeyError keyed (join_data dictionary data [y0; y1]).
Proof.
  intros. apply value_or_KeyError_foldM; [done|].
  intros. by apply join_table_keyed.
Qed.


Definition finland_2000 : DataFrame :=
  {| columns := ["country_code"; "2000"];
     rows := [ {[ "country_code" := VStr "FI"; "2000" := num 1 ]} ] |}.

Definition empty_panel : DataFrame :=
  {| columns := ["country_code"; "year"]; rows := [] |}.


(** ** Column names of the joined panel *)

Lemma foldM_Ok_ind {A B} (P : A → Prop) (f : A → B → result A) l a b :
  foldM f a l = Ok b → P a →
  (∀ a x a', x ∈ l → P a → f a x = Ok a' → P a') → P b.
Proof.
  revert a. induction l as [|x l IH]; intros a Hfold Ha Hstep; simpl in Hfold.
  - by simplify_eq.
  - apply bind_Ok in Hfold as (a' & Hfa & Hfold).
    apply (IH a' Hfold).
    + eapply Hstep; [|done..]. left.
    + intros a1 x1 a2 Hin. apply Hstep. by right.
Qed.

Lemma merge_outer_columns left right merged :
  merge_outer left right = Ok merged →
  columns merged = columns left ++ filter (λ c, c ∉ columns left) (columns right).
Proof. unfold merge_outer. case_decide; [done|]. by intros [= <-]. Qed.

Lemma fillna_from_columns c src data data' :
  fillna_from c src data = Ok data' → columns data' = columns data.
Proof. unfold fillna_from. repeat case_decide; try done. by intros [= <-]. Qed.

Lemma drop_columns c data data' :
  drop c data = Ok data' → columns data' = filter (λ x, x ≠ c) (columns data).
Proof. unfold drop. case_decide; [|done]. by intros [= <-]. Qed.

Lemma assign_from_columns c src data data' :
  assign_from c src data = Ok data' → columns data' = add_column c (columns data).
Proof. unfold assign_from. case_decide; [|done]. by intros [= <-]. Qed.

Lemma join_row_columns key year_list cols data r data' c :
  join_row key year_list cols data r = Ok data' →
  c ∈ columns data' →
  c ∈ columns data ∨ c = "country_code" ∨ c = "year".
Proof.
  unfold join_row. intros Hjoin.
  apply bind_Ok in Hjoin as (rowcode & _ & Hjoin).
  apply bind_Ok in Hjoin as (y0 & _ & Hjoin).
  apply bind_Ok in Hjoin as (y1 & _ & Hjoin).
  apply bind_Ok in Hjoin as (vals & _ & Hjoin).
  apply bind_Ok in Hjoin as (merged & Hmerge & Hjoin).
  apply bind_Ok in Hjoin as (filled & Hfill & Hdrop).
  rewrite (drop_columns _ _ _ Hdrop), (fillna_from_columns _ _ _ _ Hfill),
    (merge_outer_columns _ _ _ Hmerge).
  rewrite list_elem_of_filter, elem_of_app, list_elem_of_filter. simpl.
  rewrite elem_of_add_column. set_solver.
Qed.

Lemma join_table_columns year_list data key frame data' c :
  join_table year_list data (key, frame) = Ok data' →
  c ∈ columns data' →
  c ∈ columns data ∨ c = "country_code" ∨ c = "year" ∨ c = key.
Proof.
  unfold join_table. intros Hjoin.
  apply bind_Ok in Hjoin as (data1 & Hrows & Hjoin).
  apply bind_Ok in Hjoin as (data2 & Hassign & Hdrop).
  rewrite (drop_columns _ _ _ Hdrop), (assign_from_columns _ _ _ _ Hassign).
  rewrite list_elem_of_filter, elem_of_add_column.
  intros [Hne [Hin| ->]]; [|by auto].
  revert Hin. pattern data1.
  eapply (foldM_Ok_ind _ _ _ _ _ Hrows).
  - simpl. rewrite elem_of_add_column. intros [?|?]; [by left|done].
  - intros a x a' _ IH Hstep Hin.
    destruct (join_row_columns _ _ _ _ _ _ _ Hstep Hin) as [?|[?|?]]; auto.
Qed.

Lemma join_data_columns dictionary data year_list panel c :
  join_data dictionary data year_list = Ok panel →
  c ∈ columns panel →
  c ∈ columns data ∨ c = "country_code" ∨ c = "year" ∨ c ∈ dictionary.*1.
Proof.
  unfold join_data. intros Hjoin. pattern panel.
  eapply (foldM_Ok_ind _ _ _ _ _ Hjoin); [by left|].
  intros a [key frame] a' Hentry IH Hstep Hin.
  destruct (join_table_columns _ _ _ _ _ _ Hstep Hin) as [?|[?|[?| ->]]]; auto.
  do 3 right. apply list_elem_of_fmap. by exists (key, frame).
Qed.

(** An exception that reports a missing column. *)
Definition missing_column (e : exn) : Prop :=
  match e with
  | KeyError _ | AttributeError _ => True
  | _ => False
  end.

Lemma country_stats_without_Year code data :
  "Year" ∉ columns data →
  country_stats code data = Raise (AttributeError "country_code") ∨
  country_stats code data = Raise (KeyError "Year").
Proof.
  intros HYear. unfold country_stats, getattr.
  case_decide; simpl; [right|by left].
  unfold sort_values. simpl. by case_decide.
Qed.

Lemma continent_stats_without_Year cont data stat :
  "Year" ∉ columns data →
  ∃ c, continent_stats cont data stat = Raise (KeyError c).
Proof.
  intros HYear. unfold continent_stats, dropna.
  destruct (filter _ [stat; "Population"]) as [|c ?]; simpl; [|by eexists].
  unfold groupby_apply. simpl.
  destruct (decide ("cont_code" ∈ columns data)); [|by eexists].
  destruct (decide ("Year" ∈ columns data)); [done|by eexists].
Qed.


Definition finland_A : DataFrame :=
  {| columns := ["country_code"; "year"; "A"];
     rows := [ {[ "country_code" := VStr "FI"; "year" := num 2000; "A" := num 1 ]} ] |}.



(** ** Continent aggregate *)

(** The aggregate in the specification's words: of the rows that miss
    neither the metric nor the population, those of one continent and
    one year form a group; its value is the sum of metric times
    population over the sum of the populations. *)
Definition number (c : cell) : Qc :=
  match c with Some (VNum q) => q | _ => Q2Qc 0 end.

Definition continent_group (cont year : val) (stat : string) (data : DataFrame)
  : list row :=
  filter (λ r, (is_Some (r !! stat) ∧ is_Some (r !! "Population")) ∧
               r !! "cont_code" = Some cont ∧ r !! "Year" = Some year)
         (rows data).

Definition weighted_sum (stat : string) (group : list row) : Qc :=
  foldr (λ r s, number (r !! stat) * number (r !! "Population") + s)%Qc (Q2Qc 0) group.

Definition total_population (group : list row) : Qc :=
  foldr (λ r s, number (r !! "Population") + s)%Qc (Q2Qc 0) group.

Definition weighted_mean (stat : string) (group : list row) : cell :=
  div_sums (weighted_sum stat group) (total_population group).

Lemma forM_fmap {A B} (f : A → result B) (g : A → B) l :
  (∀ x, x ∈ l → f x = Ok (g x)) → forM f l = Ok (g <$> l).
Proof.
  induction l as [|x l IH]; intros Hf; simpl; [done|].
  rewrite Hf by left. simpl. rewrite IH; [done|].
  intros y Hy. apply Hf. by right.
Qed.

(** Rows whose metric and population are both numbers. *)
Definition numeric (stat : string) (r : row) : Prop :=
  is_num (r !! stat) ∧ is_num (r !! "Population").

Lemma wavg_numeric stat cols group :
  stat ∈ cols → "Population" ∈ cols → Forall (numeric stat) group →
  wavg {| columns := cols; rows := group |} stat "Population"
  = Ok (weighted_mean stat group).
Proof.
  intros Hstat Hpop Hnum. unfold wavg, getitem. simpl.
  rewrite !decide_True by done. simpl.
  assert (mul_series ((.!! stat) <$> group) ((.!! "Population") <$> group)
          = Ok ((λ r, Some (VNum (number (r !! stat) * number (r !! "Population"))%Qc))
                  <$> group)) as ->.
  { induction Hnum as [|r g [Hm Hp] _ IH]; [done|].
    rewrite !fmap_cons. cbn [mul_series].
    destruct (r !! stat) as [[m|]|]; try done.
    destruct (r !! "Population") as [[q|]|]; try done.
    cbn [mul_cell]. by rewrite IH. }
  simpl.
  assert (sum_series
            ((λ r, Some (VNum (number (r !! stat) * number (r !! "Population"))%Qc))
               <$> group) = Ok (weighted_sum stat group)) as ->.
  { clear Hnum. induction group as [|r g IH]; [done|].
    rewrite fmap_cons. cbn [sum_series]. by rewrite IH. }
  simpl.
  assert (sum_series ((.!! "Population") <$> group) = Ok (total_population group)) as ->.
  { induction Hnum as [|r g [_ Hp] _ IH]; [done|].
    rewrite fmap_cons. cbn [total_population foldr].
    destruct (r !! "Population") as [[q|]|]; try done.
    cbn [sum_series]. by rewrite IH. }
  done.
Qed.

Lemma group_key_Some c1 c2 r k :
  group_key c1 c2 r = Some k ↔ r !! c1 = Some k.1 ∧ r !! c2 = Some k.2.
Proof.
  unfold group_key. destruct k as [a b]. simpl.
  destruct (r !! c1), (r !! c2); simpl; naive_solver.
Qed.

(** The group [groupby] forms for the key of a continent and a year is
    the group of the specification. *)
Lemma grouped_rows cont year stat data :
  filter (λ r, group_key "cont_code" "Year" r = Some (cont, year))
    (filter (λ r, Forall (λ c, is_Some (r !! c)) [stat; "Population"]) (rows data))
  = continent_group cont year stat data.
Proof.
  rewrite list_filter_filter. apply list_filter_iff. intros r.
  rewrite group_key_Some, !Forall_cons, Forall_nil. simpl. tauto.
Qed.

Lemma select_level_elem k s chosen year v :
  select_level k s = Ok chosen →
  (year, v) ∈ chosen ↔ ((k, year), v) ∈ s.
Proof.
  unfold select_level. intros Hsel.
  assert (chosen = (λ e, (e.1.2, e.2)) <$> filter (λ e, e.1.1 = k) s) as ->.
  { destruct (filter _ s); by simplify_eq. }
  rewrite list_elem_of_fmap. split.
  - intros ([[k1 y'] v'] & [= -> ->] & [Hk ?]%list_elem_of_filter).
    simpl in Hk. by subst.
  - intros Hin. exists ((k, year), v). split; [done|].
    by apply list_elem_of_filter.
Qed.

Lemma group_keys_elem c1 c2 (l : list row) k :
  k ∈ merge_sort key_le (remove_dups (omap (group_key c1 c2) l)) ↔
  filter (λ r, group_key c1 c2 r = Some k) l ≠ [].
Proof.
  rewrite merge_sort_Permutation, elem_of_remove_dups, list_elem_of_omap. split.
  - intros (r & Hr & Hk) Hnil.
    by apply (filter_nil_not_elem_of _ _ r Hnil).
  - intros Hne. destruct (filter _ l) as [|r g] eqn:Hfilter; [done|].
    assert (r ∈ filter (λ r, group_key c1 c2 r = Some k) l) as Hr
      by (rewrite Hfilter; left).
    apply list_elem_of_filter in Hr as [? ?]. by exists r.
Qed.

Lemma group_keys_NoDup c1 c2 (l : list row) :
  NoDup (merge_sort key_le (remove_dups (omap (group_key c1 c2) l))).
Proof. rewrite merge_sort_Permutation. apply NoDup_remove_dups. Qed.

Lemma dropna_present subset data :
  Forall (λ c, c ∈ columns data) subset →
  dropna subset data
  = Ok {| columns := columns data;
          rows := filter (λ r, Forall (λ c, is_Some (r !! c)) subset) (rows data) |}.
Proof.
  intros Hcols. unfold dropna.
  assert (filter (λ c, c ∉ columns data) subset = []) as ->; [|done].
  induction Hcols as [|c l Hc _ IH]; [done|].
  by rewrite filter_cons_False by auto.
Qed.

(** [continent_stats] on a panel that has the four columns and numbers
    (or nothing) in the metric and population cells. *)
Lemma continent_stats_groups cont data stat :
  stat ∈ columns data → "Population" ∈ columns data →
  "cont_code" ∈ columns data → "Year" ∈ columns data →
  (∀ r, r ∈ rows data → ¬ is_str (r !! stat) ∧ ¬ is_str (r !! "Population")) →
  (∃ year, continent_group cont year stat data ≠ []) →
  ∃ series,
    continent_stats cont data stat = Ok series ∧
    NoDup series.*1 ∧
    ∀ year v,
      (year, v) ∈ series ↔
      continent_group cont year stat data ≠ [] ∧
      v = weighted_mean stat (continent_group cont year stat data).
Proof.
  intros Hstat Hpop Hcont HYear Hnum [year0 Hgroup0].
  unfold continent_stats.
  rewrite dropna_present by (repeat constructor; done). simpl.
  set (rows1 := filter (λ r, Forall (λ c, is_Some (r !! c)) [stat; "Population"])
                  (rows data)).
  unfold groupby_apply. simpl. rewrite !decide_True by done.
  set (keys := merge_sort key_le (remove_dups (omap (group_key "cont_code" "Year") rows1))).
  set (value := λ k : val * val,
         (k, weighted_mean stat
               (filter (λ r, group_key "cont_code" "Year" r = Some k) rows1))).
  rewrite (forM_fmap _ value); cycle 1.
  { intros k _. rewrite wavg_numeric; [done..|].
    apply Forall_forall. intros r [_ Hr]%list_elem_of_filter.
    apply list_elem_of_filter in Hr as [Hsome Hr].
    apply Forall_cons in Hsome as [[m Hm] Hsome].
    apply Forall_cons in Hsome as [[q Hq] _].
    destruct (Hnum r Hr) as [Hm' Hq']. unfold numeric.
    rewrite Hm, Hq in *. by destruct m, q. }
  simpl.
  assert (Hkeys : ∀ year, (cont, year) ∈ keys ↔ continent_group cont year stat data ≠ []).
  { intros year. unfold keys, rows1. by rewrite group_keys_elem, grouped_rows. }
  assert (Helem : ∀ year v,
             ((cont, year), v) ∈ value <$> keys ↔
             continent_group cont year stat data ≠ [] ∧
             v = weighted_mean stat (continent_group cont year stat data)).
  { intros year v. rewrite list_elem_of_fmap, <-Hkeys. unfold value, rows1. split.
    - intros (k & [= <- ->] & Hk). by rewrite grouped_rows.
    - intros [Hk ->]. exists (cont, year). by rewrite grouped_rows. }
  destruct (select_level cont (value <$> keys)) as [series|e] eqn:Hsel.
  - exists series. split; [done|]. split.
    + unfold select_level in Hsel.
      assert (series = (λ e, (e.1.2, e.2)) <$> filter (λ e, e.1.1 = cont) (value <$> keys))
        as -> by (destruct (filter _ (value <$> keys)); by simplify_eq).
      rewrite <-list_fmap_compose. apply NoDup_fmap_2_strong.
      * intros [k1 v1] [k2 v2] [Hk1 Hin1]%list_elem_of_filter [Hk2 Hin2]%list_elem_of_filter.
        simpl in *. intros Hyear.
        apply list_elem_of_fmap in Hin1 as (k1' & [= <- ->] & _).
        apply list_elem_of_fmap in Hin2 as (k2' & [= <- ->] & _).
        destruct k1, k2; simpl in *. by subst.
      * apply NoDup_filter, NoDup_fmap_2_strong; [|apply group_keys_NoDup].
        by intros k1 k2 _ _ [= ->].
    + intros year v. by rewrite (select_level_elem _ _ _ _ _ Hsel).
  - exfalso. unfold select_level in Hsel.
    destruct (filter _ (value <$> keys)) eqn:Hfilter; [|done].
    eapply (filter_nil_not_elem_of _ _ ((cont, year0), _) Hfilter); [done|].
    apply Helem. done.
Qed.

Definition two_countries : DataFrame :=
  {| columns := ["country_code"; "cont_code"; "Year"; "Population"; "GDP"];
     rows := [ {[ "country_code" := VStr "FI"; "cont_code" := VStr "EU";
                  "Year" := num 2001; "Population" := num 2; "GDP" := num 10 ]};
               {[ "country_code" := VStr "SE"; "cont_code" := VStr "EU";
                  "Year" := num 2001; "Population" := num 8; "GDP" := num 20 ]} ] |}.

#[global] Instance result_eq_dec `{EqDecision A} : EqDecision (result A).
Proof. solve_decision. Defined.



(** ** Country series *)

Lemma ascii_compare_Lt_trans a b c :
  Ascii.compare a b = Lt → Ascii.compare b c = Lt → Ascii.compare a c = Lt.
Proof. unfold Ascii.compare. rewrite !N.compare_lt_iff. lia. Qed.

Lemma string_compare_trans s1 s2 s3 :
  String.compare s1 s2 ≠ Gt → String.compare s2 s3 ≠ Gt → String.compare s1 s3 ≠ Gt.
Proof.
  revert s2 s3. induction s1 as [|a s1 IH]; intros [|b s2] [|c s3]; simpl; try done.
  destruct (Ascii.compare a b) eqn:Hab; [| |done].
  - apply Ascii.compare_eq_iff in Hab as ->.
    destruct (Ascii.compare b c) eqn:Hbc; [|done..]. apply IH.
  - intros _. destruct (Ascii.compare b c) eqn:Hbc; [| |done].
    + apply Ascii.compare_eq_iff in Hbc as ->. by rewrite Hab.
    + by rewrite (ascii_compare_Lt_trans a b c).
Qed.

Lemma string_leb_trans s1 s2 s3 :
  String.leb s1 s2 → String.leb s2 s3 → String.leb s1 s3.
Proof.
  unfold String.leb. intros H12 H23.
  pose proof (string_compare_trans s1 s2 s3) as Htrans.
  destruct (String.compare s1 s2), (String.compare s2 s3), (String.compare s1 s3);
    try done; exfalso; by apply Htrans.
Qed.

#[global] Instance cell_le_total : Total cell_le.
Proof.
  intros [[x|s]|] [[y|t]|]; simpl; auto.
  - apply Qc_le_total.
  - destruct (String.leb_total s t) as [-> | ->]; auto.
Qed.

#[global] Instance cell_le_trans : Transitive cell_le.
Proof.
  intros [[x|s]|] [[y|t]|] [[z|u]|]; simpl; try done.
  - apply Qcle_trans.
  - apply string_leb_trans.
Qed.

Lemma cell_le_antisym a b : cell_le a b → cell_le b a → a = b.
Proof.
  destruct a as [[x|s]|], b as [[y|t]|]; simpl; try done.
  - intros. do 2 f_equal. by apply Qcle_antisym.
  - intros H1%Is_true_true H2%Is_true_true. do 2 f_equal.
    by apply String.leb_antisym.
Qed.

(** Strictly ascending: in order, and different. *)
Definition cell_lt (a b : cell) : Prop := cell_le a b ∧ a ≠ b.


Lemma StronglySorted_strict (l : list cell) :
  StronglySorted cell_le l → NoDup l → StronglySorted cell_lt l.
Proof.
  induction 1 as [|a l Hsorted IH Hall]; intros Hnodup; constructor.
  - apply IH. by apply NoDup_cons in Hnodup as [_ ?].
  - apply NoDup_cons in Hnodup as [Hnotin _].
    rewrite Forall_forall in Hall |- *. intros b Hb. split; [by apply Hall|].
    by intros ->.
Qed.

Lemma selected_years_NoDup code (l : list row) :
  NoDup ((λ r, (r !! "country_code", r !! "Year")) <$> l) →
  NoDup ((.!! "Year") <$> filter (λ r, r !! "country_code" = Some code) l).
Proof.
  induction l as [|r l IH]; [constructor|].
  rewrite fmap_cons, NoDup_cons. intros [Hnotin Hnodup].
  destruct (decide (r !! "country_code" = Some code)) as [Hcode|Hcode].
  - rewrite filter_cons_True, fmap_cons by done. apply NoDup_cons. split; [|by apply IH].
    intros (r' & Hyear & [Hcode' Hr']%list_elem_of_filter)%list_elem_of_fmap.
    apply Hnotin, list_elem_of_fmap. exists r'. split; [|done]. congruence.
  - rewrite filter_cons_False by done. by apply IH.
Qed.


Definition nordic_panel : DataFrame :=
  {| columns := ["country_code"; "Year"; "Population"];
     rows := [ {[ "country_code" := VStr "FI"; "Year" := num 2001; "Population" := num 5 ]};
               {[ "country_code" := VStr "SE"; "Year" := num 2000; "Population" := num 9 ]};
               {[ "country_code" := VStr "FI"; "Year" := num 2000; "Population" := num 5 ]} ] |}.

(** ** Panel joiner: one country row *)

(** The pair a row is joined on. *)
Definition row_key (r : row) : cell * cell :=
  (r !! "country_code", r !! "year").

(** A row holds values in the columns of its frame only. *)
Definition within (cols : list string) (r : row) : Prop :=
  ∀ c, c ∉ cols → r !! c = None.

(** The row of [dftemp] for one year of the table row [r]. *)
Definition country_row (key : string) (r : row) (y : Z) : row :=
  set_cell key (r !! pretty y)
    (set_cell "year" (Some (num y))
       (set_cell "country_code" (r !! "country_code") ∅)).

(** What one pass of the loop body leaves of a row of [dftemp] that
    found no partner. *)
Definition fresh_row (r : row) (y : Z) : row :=
  set_cell "temp" (r !! pretty y)
    (set_cell "year" (Some (num y))
       (set_cell "country_code" (r !! "country_code") ∅)).

(** The value the table row [r] has for the year in the cell [yc]. *)
Definition year_value (years : list Z) (r : row) (yc : cell) : cell :=
  match list_find (λ y, yc = Some (num y)) years with
  | Some (_, y) => r !! pretty y
  | None => None
  end.

Definition fill (v : cell) (p : row) : row :=
  match p !! "temp" with
  | Some _ => p
  | None => set_cell "temp" v p
  end.

(** What one pass of the loop body does to a row of the panel. *)
Definition touch (years : list Z) (r p : row) : row :=
  if decide (p !! "country_code" = r !! "country_code")
  then fill (year_value years r (p !! "year")) p
  else p.

(** The years of the table row that have no row in the panel yet. *)
Definition unmatched (l : list row) (r : row) (years : list Z) : list Z :=
  filter (λ y, (r !! "country_code", Some (num y)) ∉ row_key <$> l) years.

Lemma lookup_set_cell c v (r : row) i :
  set_cell c v r !! i = if decide (c = i) then v else r !! i.
Proof. unfold set_cell. by rewrite lookup_partial_alter. Qed.

Lemma set_cell_None c (r : row) : r !! c = None → set_cell c None r = r.
Proof.
  intros Hc. apply map_eq. intros i. rewrite lookup_set_cell.
  case_decide; by subst.
Qed.

Lemma filter_fmap {A B} (f : A → B) (P : B → Prop) `{∀ x, Decision (P x)} (l : list A) :
  filter P (f <$> l) = f <$> filter (λ x, P (f x)) l.
Proof.
  induction l as [|x l IH]; [done|].
  rewrite fmap_cons, !filter_cons, IH. by case_decide.
Qed.

Lemma bind_singletons {A B} (F : A → list B) (h : A → B) (l : list A) :
  (∀ x, x ∈ l → F x = [h x]) → l ≫= F = h <$> l.
Proof.
  induction l as [|x l IH]; intros HF; [done|].
  rewrite bind_cons, fmap_cons, HF by left. simpl. f_equal.
  apply IH. intros y Hy. apply HF. by right.
Qed.

Lemma forM_loc_present cols r (years : list Z) :
  (∀ y, y ∈ years → pretty y ∈ cols) →
  forM (λ year, loc cols r (pretty year)) years = Ok ((λ y, r !! pretty y) <$> years).
Proof. intros Hcols. apply forM_fmap. intros y Hy. by apply loc_in, Hcols. Qed.

Lemma filter_ne_not_in (c : string) (cols : list string) :
  c ∉ cols → filter (λ x, x ≠ c) cols = cols.
Proof.
  induction cols as [|x cols IH]; [done|].
  rewrite not_elem_of_cons. intros [Hne Hnotin].
  rewrite filter_cons_True by done. by rewrite IH.
Qed.

Lemma num_inj y1 y2 : num y1 = num y2 → y1 = y2.
Proof. unfold num. intros H. apply Z2Qc_inj. congruence. Qed.

Lemma row_key_country_row key r y :
  key ≠ "country_code" → key ≠ "year" →
  row_key (country_row key r y) = (r !! "country_code", Some (num y)).
Proof.
  intros. unfold row_key, country_row. rewrite !lookup_set_cell.
  repeat (case_decide; simplify_eq); done.
Qed.

(** At most one year of a list without repetition is the year of a cell. *)
Lemma filter_year_cell (yc : cell) (years : list Z) :
  NoDup years →
  match list_find (λ y, yc = Some (num y)) years with
  | Some (_, y) => filter (λ y, yc = Some (num y)) years = [y]
  | None => filter (λ y, yc = Some (num y)) years = []
  end.
Proof.
  induction 1 as [|y0 years Hnotin Hnodup IH]; [done|].
  cbn [list_find]. destruct (decide (yc = Some (num y0))) as [->|Hne].
  - rewrite filter_cons_True by done. f_equal.
    clear IH. induction years as [|y1 years IH]; [done|].
    apply not_elem_of_cons in Hnotin as [Hne Hnotin].
    rewrite filter_cons_False.
    + apply IH; [done|]. by apply NoDup_cons in Hnodup as [_ ?].
    + intros Heq. apply Hne. apply num_inj. congruence.
  - rewrite filter_cons_False by done.
    destruct (list_find _ years) as [[i y]|]; simpl; done.
Qed.

Lemma filter_none {A} (P : A → Prop) `{∀ x, Decision (P x)} (l : list A) :
  (∀ x, ¬ P x) → filter P l = [].
Proof.
  intros HP. induction l as [|x l IH]; [done|].
  by rewrite filter_cons_False.
Qed.

Lemma ok_bind {A B} (a : A) (f : A → result B) : Ok a ≫= f = f a.
Proof. done. Qed.

Section join_row.
Variables (key : string) (y0 y1 : Z) (tcols : list string) (data : DataFrame) (r : row).
Hypothesis Hkey_cc : key ≠ "country_code".
Hypothesis Hkey_year : key ≠ "year".
Hypothesis Hkey_temp : key ≠ "temp".
Hypothesis Hcc : "country_code" ∈ columns data.
Hypothesis Hyear : "year" ∈ columns data.
Hypothesis Htemp : "temp" ∈ columns data.
Hypothesis Hkey : key ∉ columns data.
Hypothesis Hwithin : Forall (within (columns data)) (rows data).
Hypothesis Htcc : "country_code" ∈ tcols.
Hypothesis Htyears : ∀ y, y ∈ seqZ y0 (y1 + 1 - y0) → pretty y ∈ tcols.

Local Abbreviation years := (seqZ y0 (y1 + 1 - y0)).
Local Abbreviation right := (dftemp key (r !! "country_code") years ((λ y, r !! pretty y) <$> years)).
Local Abbreviation on := (filter (λ c, c ∈ columns right) (columns data)).

Lemma dftemp_rows : rows right = country_row key r <$> years.
Proof. simpl. by rewrite zip_with_fmap_r, zip_with_diag. Qed.

Lemma dftemp_columns : columns right = ["country_code"; "year"; key].
Proof.
  simpl. unfold add_column. rewrite decide_False; [done|].
  rewrite !not_elem_of_cons. split_and!; [done..|apply not_elem_of_nil].
Qed.

Lemma on_elem c : c ∈ on ↔ c = "country_code" ∨ c = "year".
Proof.
  rewrite list_elem_of_filter, dftemp_columns, !elem_of_cons, elem_of_nil.
  split; [|intros [-> | ->]; auto].
  intros [[?|[?|[->|[]]]] ?]; auto. done.
Qed.

Lemma agree_row_key p q : agree on p q ↔ row_key p = row_key q.
Proof.
  unfold agree, row_key. rewrite Forall_forall. split.
  - intros Hall. f_equal; apply Hall, on_elem; auto.
  - intros [= Hc Hy] c [-> | ->]%on_elem; done.
Qed.

(** The row the merge makes of a row of the panel. *)
Definition merged_row (p : row) : row :=
  if decide (p !! "country_code" = r !! "country_code") then
    match list_find (λ y, p !! "year" = Some (num y)) years with
    | Some (_, y) => p ∪ country_row key r y
    | None => p
    end
  else p.

Lemma merge_left_row p :
  match filter (agree on p) (rows right) with
  | [] => [p]
  | partners => (λ rr, p ∪ rr) <$> partners
  end = [merged_row p].
Proof.
  rewrite dftemp_rows, filter_fmap. unfold merged_row.
  destruct (decide (p !! "country_code" = r !! "country_code")) as [Hcode|Hcode].
  - rewrite (list_filter_iff _ (λ y, p !! "year" = Some (num y))); cycle 1.
    { intros y. rewrite agree_row_key, row_key_country_row by done.
      unfold row_key. rewrite Hcode. split; [by intros [= ?]|by intros ->]. }
    pose proof (filter_year_cell (p !! "year") years (NoDup_seqZ _ _)) as Hfilter.
    destruct (list_find _ years) as [[i y]|]; by rewrite Hfilter.
  - rewrite filter_none; [done|].
    intros y. rewrite agree_row_key, row_key_country_row by done.
    unfold row_key. by intros [= ? ?].
Qed.

Lemma merge_right_rows :
  filter (λ rr, Forall (λ rl, ¬ agree on rl rr) (rows data)) (rows right)
  = country_row key r <$> unmatched (rows data) r years.
Proof.
  rewrite dftemp_rows, filter_fmap. f_equal. apply list_filter_iff. intros y.
  rewrite Forall_forall, list_elem_of_fmap. split.
  - intros Hall (p & Hkeys & Hp). apply (Hall p Hp).
    by rewrite agree_row_key, row_key_country_row.
  - intros Hnot p Hp Hagree. apply Hnot. exists p. split; [|done].
    by rewrite agree_row_key, row_key_country_row in Hagree.
Qed.

(** [fillna] from the new column, then [drop] of the new column, on a row. *)
Definition finish (q : row) : row :=
  delete key (match q !! "temp" with
              | Some _ => q
              | None => set_cell "temp" (q !! key) q
              end).

Lemma finish_merged_row p :
  within (columns data) p → finish (merged_row p) = touch years r p.
Proof.
  intros Hp. assert (Hpkey : p !! key = None) by by apply Hp.
  unfold finish, merged_row, touch, fill, year_value.
  destruct (decide (p !! "country_code" = r !! "country_code")) as [Hcode|Hcode].
  - destruct (list_find _ years) as [[i y]|] eqn:Hfind.
    + apply list_find_Some in Hfind as (_ & Hy & _).
      assert (Htmp : (p ∪ country_row key r y) !! "temp" = p !! "temp").
      { apply lookup_union_l. unfold country_row. rewrite !lookup_set_cell.
        repeat (case_decide; simplify_eq); done. }
      assert (Hval : (p ∪ country_row key r y) !! key = r !! pretty y).
      { rewrite lookup_union_r by done. unfold country_row.
        rewrite lookup_set_cell. by rewrite decide_True. }
      rewrite Htmp, Hval.
      assert (Hother : ∀ c, c ≠ key → (p ∪ country_row key r y) !! c = p !! c).
      { intros c Hc. rewrite lookup_union. unfold country_row.
        rewrite !lookup_set_cell, lookup_empty.
        repeat (case_decide; simplify_eq); try done.
        - rewrite Hy. by destruct (p !! "year").
        - rewrite Hcode. by destruct (r !! "country_code").
        - by destruct (p !! c). }
      apply map_eq. intros c.
      destruct (decide (c = key)) as [->|Hc].
      { rewrite lookup_delete_eq. destruct (p !! "temp"); [done|].
        rewrite lookup_set_cell. by rewrite decide_False. }
      rewrite lookup_delete_ne by done.
      destruct (p !! "temp") eqn:Hptemp; [by apply Hother|].
      rewrite !lookup_set_cell. case_decide; [done|]. by apply Hother.
    + rewrite Hpkey.
      destruct (p !! "temp") eqn:Hptemp.
      * by apply delete_id.
      * rewrite !set_cell_None by done. by apply delete_id.
  - rewrite Hpkey. destruct (p !! "temp") eqn:Hptemp.
    + by apply delete_id.
    + rewrite set_cell_None by done. by apply delete_id.
Qed.

Lemma finish_country_row y : finish (country_row key r y) = fresh_row r y.
Proof.
  assert (Htmp : country_row key r y !! "temp" = None).
  { unfold country_row. rewrite !lookup_set_cell, lookup_empty.
    repeat (case_decide; simplify_eq); done. }
  assert (Hval : country_row key r y !! key = r !! pretty y).
  { unfold country_row. rewrite lookup_set_cell. by rewrite decide_True. }
  unfold finish. rewrite Htmp, Hval. apply map_eq. intros c.
  unfold fresh_row, country_row.
  destruct (decide (c = key)) as [->|Hc].
  - rewrite lookup_delete_eq, !lookup_set_cell, lookup_empty.
    repeat (case_decide; simplify_eq); done.
  - rewrite lookup_delete_ne, !lookup_set_cell, lookup_empty by done.
    repeat (case_decide; simplify_eq); done.
Qed.


Lemma merge_outer_country :
  merge_outer data right
  = Ok {| columns := columns data ++ [key];
          rows := (merged_row <$> rows data)
                  ++ (country_row key r <$> unmatched (rows data) r years) |}.
Proof.
  unfold merge_outer. rewrite decide_False; cycle 1.
  { intros Hnil. eapply (filter_nil_not_elem_of _ _ "country_code" Hnil); [|done].
    rewrite dftemp_columns. left. }
  f_equal. f_equal.
  - f_equal. rewrite dftemp_columns.
    rewrite !filter_cons_False by (intros Hnot; by apply Hnot).
    by rewrite filter_cons_True.
  - f_equal; [|apply merge_right_rows].
    apply bind_singletons. intros p _. apply merge_left_row.
Qed.

(** The loop body on a panel that has the join columns and the column
    [temp], for a table row that has all the year columns. *)
Lemma join_row_rows :
  join_row key [y0; y1] tcols data r
  = Ok {| columns := columns data;
          rows := (touch years r <$> rows data)
                  ++ (fresh_row r <$> unmatched (rows data) r years) |}.
Proof.
  unfold join_row. rewrite loc_in by done. rewrite ok_bind.
  change (item [y0; y1] 0) with (Ok y0). rewrite ok_bind.
  change (item [y0; y1] 1) with (Ok y1). rewrite ok_bind.
  rewrite forM_loc_present by done. rewrite ok_bind.
  rewrite merge_outer_country, ok_bind.
  unfold fillna_from. cbn [columns rows].
  rewrite !decide_True by set_solver. rewrite ok_bind.
  unfold drop. cbn [columns rows].
  rewrite decide_True by set_solver.
  f_equal. f_equal.
  - rewrite filter_app, (filter_ne_not_in key) by done.
    rewrite filter_cons_False by (intros Hne; by apply Hne).
    by rewrite filter_nil, app_nil_r.
  - rewrite <-list_fmap_compose, !fmap_app, <-!list_fmap_compose. f_equal.
    + apply Forall_fmap_ext_1. eapply Forall_impl; [exact Hwithin|].
      intros p Hp. by apply finish_merged_row.
    + apply list_fmap_ext. intros i y _. apply finish_country_row.
Qed.
End join_row.

(** ** Panel joiner: one indicator table *)

(** The rows of the panel after the loop body has run for the table
    row [r]. *)
Definition join_rows_step (years : list Z) (l : list row) (r : row) : list row :=
  (touch years r <$> l) ++ (fresh_row r <$> unmatched l r years).

Fixpoint first_value (l : list cell) : cell :=
  match l with
  | [] => None
  | Some v :: _ => Some v
  | None :: l' => first_value l'
  end.

(** The value an indicator table has for a country and year: the cell
    of the year in the row of the country (the first that is not
    missing, should the table have several rows for the country). *)
Definition table_value (years : list Z) (table_rows : list row) (k : cell * cell) : cell :=
  first_value ((λ r, year_value years r k.2)
                 <$> filter (λ r, r !! "country_code" = k.1) table_rows).

(** [data[key] = data["temp"]], then [drop] of [temp], on a row. *)
Definition settle (key : string) (p : row) : row :=
  delete "temp" (set_cell key (p !! "temp") p).

Lemma first_value_app l1 l2 :
  first_value (l1 ++ l2)
  = match first_value l1 with Some v => Some v | None => first_value l2 end.
Proof. induction l1 as [|[v|] l1 IH]; simpl; auto. Qed.

Lemma year_value_in years r (y : Z) :
  y ∈ years → year_value years r (Some (num y)) = r !! pretty y.
Proof.
  intros Hy. unfold year_value.
  destruct (list_find _ years) as [[i y']|] eqn:Hfind.
  - apply list_find_Some in Hfind as (_ & Heq & _).
    assert (y = y') as -> by (apply num_inj; congruence). done.
  - apply list_find_None in Hfind. rewrite Forall_forall in Hfind.
    by destruct (Hfind y Hy).
Qed.


Lemma table_value_snoc years done r k :
  table_value years (done ++ [r]) k
  = match table_value years done k with
    | Some v => Some v
    | None => if decide (r !! "country_code" = k.1) then year_value years r k.2 else None
    end.
Proof.
  unfold table_value. rewrite filter_app, fmap_app, first_value_app.
  destruct (first_value _); [done|].
  rewrite filter_cons, filter_nil. case_decide; [|done].
  simpl. by destruct (year_value _ _ _).
Qed.

Lemma table_value_no_row years table_rows k :
  (∀ r, r ∈ table_rows → r !! "country_code" ≠ k.1) →
  table_value years table_rows k = None.
Proof.
  intros Hnone. unfold table_value.
  assert (filter (λ r, r !! "country_code" = k.1) table_rows = []) as ->; [|done].
  induction table_rows as [|r l IH]; [done|].
  rewrite filter_cons_False by (apply Hnone; left).
  apply IH. intros r' Hr'. apply Hnone. by right.
Qed.

Lemma row_key_touch years r p : row_key (touch years r p) = row_key p.
Proof.
  unfold touch, fill, row_key. case_decide; [|done].
  destruct (p !! "temp"); [done|]. by rewrite !lookup_set_cell.
Qed.

Lemma row_key_fresh_row r y :
  row_key (fresh_row r y) = (r !! "country_code", Some (num y)).
Proof. unfold row_key, fresh_row. by rewrite !lookup_set_cell. Qed.

Lemma touch_other years r p c : c ≠ "temp" → touch years r p !! c = p !! c.
Proof.
  intros Hc. unfold touch, fill. case_decide; [|done].
  destruct (p !! "temp"); [done|]. rewrite lookup_set_cell. by rewrite decide_False.
Qed.

Lemma touch_temp years r p :
  touch years r p !! "temp"
  = match p !! "temp" with
    | Some v => Some v
    | None => if decide (r !! "country_code" = p !! "country_code")
              then year_value years r (p !! "year") else None
    end.
Proof.
  unfold touch, fill.
  destruct (decide (p !! "country_code" = r !! "country_code")) as [Heq|Hne].
  - rewrite decide_True by done.
    destruct (p !! "temp") eqn:Htemp; [done|]. by rewrite lookup_set_cell.
  - rewrite decide_False by done. by destruct (p !! "temp").
Qed.

Lemma fresh_row_other r y c :
  c ≠ "temp" → c ≠ "year" → c ≠ "country_code" → fresh_row r y !! c = None.
Proof.
  intros. unfold fresh_row. rewrite !lookup_set_cell, lookup_empty.
  repeat (case_decide; simplify_eq); done.
Qed.

Lemma fresh_row_temp r y : fresh_row r y !! "temp" = r !! pretty y.
Proof. unfold fresh_row. by rewrite lookup_set_cell. Qed.

Lemma join_rows_step_keys years l r :
  row_key <$> join_rows_step years l r
  = (row_key <$> l)
    ++ ((λ y, (r !! "country_code", Some (num y))) <$> unmatched l r years).
Proof.
  unfold join_rows_step. rewrite fmap_app, <-!list_fmap_compose. f_equal.
  - apply list_fmap_ext. intros i p _. apply row_key_touch.
  - apply list_fmap_ext. intros i y _. apply row_key_fresh_row.
Qed.

Lemma join_rows_step_NoDup years l r :
  NoDup years → NoDup (row_key <$> l) → NoDup (row_key <$> join_rows_step years l r).
Proof.
  intros Hyears Hl. rewrite join_rows_step_keys. apply NoDup_app. split_and!.
  - done.
  - intros k Hk (y & -> & Hy)%list_elem_of_fmap.
    by apply list_elem_of_filter in Hy as [Hnot _].
  - apply NoDup_fmap_2_strong; [|by apply NoDup_filter].
    intros y y' _ _ [= Heq]. apply num_inj. congruence.
Qed.

Lemma join_rows_step_key_elem years l r k :
  k ∈ row_key <$> join_rows_step years l r ↔
  k ∈ row_key <$> l ∨ ∃ y, y ∈ years ∧ k = (r !! "country_code", Some (num y)).
Proof.
  rewrite join_rows_step_keys, elem_of_app. split.
  - intros [?|(y & -> & [_ Hy]%list_elem_of_filter)%list_elem_of_fmap];
      [by left|right; eauto].
  - intros [?|(y & Hy & ->)]; [by left|].
    destruct (decide ((r !! "country_code", Some (num y)) ∈ row_key <$> l)); [by left|].
    right. apply list_elem_of_fmap. exists y. split; [done|].
    by apply list_elem_of_filter.
Qed.

Section table_loop.
Variables (years : list Z) (l0 : list row).
Hypothesis Hyears : NoDup years.
Hypothesis Hl0 : NoDup (row_key <$> l0).
Hypothesis Htemp0 : Forall (λ p, p !! "temp" = None) l0.

(** What holds of the rows of the panel after the table rows [done]. *)
Record loop_inv (done l : list row) : Prop := {
  inv_NoDup : NoDup (row_key <$> l);
  inv_keys : ∀ k,
    k ∈ row_key <$> l ↔
    k ∈ row_key <$> l0 ∨
    ∃ r y, r ∈ done ∧ y ∈ years ∧ k = (r !! "country_code", Some (num y));
  inv_temp : ∀ p, p ∈ l → p !! "temp" = table_value years done (row_key p);
  inv_other : ∀ p c, p ∈ l → c ≠ "temp" →
    (∃ q, q ∈ l0 ∧ row_key q = row_key p ∧ q !! c = p !! c) ∨
    ((row_key p ∉ row_key <$> l0) ∧
     (c ≠ "country_code" → c ≠ "year" → p !! c = None));
}.

Lemma loop_inv_init : loop_inv [] l0.
Proof.
  split.
  - done.
  - intros k. split; [by left|]. intros [?|(r & y & Hr & _)]; [done|]. by inv Hr.
  - intros p Hp. rewrite Forall_forall in Htemp0. by rewrite Htemp0.
  - intros p c Hp _. left. by exists p.
Qed.

Lemma loop_inv_step done l r :
  loop_inv done l → loop_inv (done ++ [r]) (join_rows_step years l r).
Proof.
  intros [Hnodup Hkeys Htemp Hother].
  assert (Hfresh : ∀ y, y ∈ unmatched l r years →
            y ∈ years ∧ (r !! "country_code", Some (num y)) ∉ row_key <$> l).
  { intros y [? ?]%list_elem_of_filter. done. }
  split.
  - by apply join_rows_step_NoDup.
  - intros k. rewrite join_rows_step_key_elem, Hkeys. split.
    + intros [[?|(r' & y & Hr' & Hy & ->)]|(y & Hy & ->)].
      * by left.
      * right. exists r', y. split_and!; [|done..]. apply elem_of_app. by left.
      * right. exists r, y. split_and!; [|done..]. apply elem_of_app. right. left.
    + intros [?|(r' & y & Hr' & Hy & ->)]; [by left; left|].
      apply elem_of_app in Hr' as [Hr'|Hr'].
      * left. right. by exists r', y.
      * apply list_elem_of_singleton in Hr' as ->. right. by exists y.
  - intros p' [Hp'|Hp']%elem_of_app.
    + apply list_elem_of_fmap in Hp' as (p & -> & Hp).
      rewrite touch_temp, row_key_touch, table_value_snoc, (Htemp p Hp).
      done.
    + apply list_elem_of_fmap in Hp' as (y & -> & Hy).
      destruct (Hfresh y Hy) as [Hyears' Hnew].
      rewrite fresh_row_temp, row_key_fresh_row, table_value_snoc.
      rewrite table_value_no_row; cycle 1.
      { intros r' Hr' Heq. apply Hnew, Hkeys. right. exists r', y.
        simpl in Heq. by rewrite Heq. }
      simpl. rewrite decide_True by done. by rewrite year_value_in.
  - intros p' c [Hp'|Hp']%elem_of_app Hc.
    + apply list_elem_of_fmap in Hp' as (p & -> & Hp).
      rewrite row_key_touch, touch_other by done. by apply Hother.
    + apply list_elem_of_fmap in Hp' as (y & -> & Hy).
      destruct (Hfresh y Hy) as [Hyears' Hnew].
      right. rewrite row_key_fresh_row. split.
      * intros Hin. apply Hnew, Hkeys. by left.
      * intros. by apply fresh_row_other.
Qed.

Lemma loop_inv_foldl done l rest :
  loop_inv done l → loop_inv (done ++ rest) (foldl (join_rows_step years) l rest).
Proof.
  revert done l. induction rest as [|r rest IH]; intros done l Hinv; simpl.
  - by rewrite app_nil_r.
  - rewrite (assoc_L (++) done [r] rest : done ++ r :: rest = (done ++ [r]) ++ rest).
    by apply IH, loop_inv_step.
Qed.
End table_loop.

Lemma within_touch cols years r p :
  "temp" ∈ cols → within cols p → within cols (touch years r p).
Proof.
  intros Htemp Hp c Hc. rewrite touch_other; [by apply Hp|]. by intros ->.
Qed.

Lemma within_fresh_row cols r y :
  "country_code" ∈ cols → "year" ∈ cols → "temp" ∈ cols → within cols (fresh_row r y).
Proof. intros ??? c Hc. apply fresh_row_other; by intros ->. Qed.

Lemma within_join_rows_step cols years l r :
  "country_code" ∈ cols → "year" ∈ cols → "temp" ∈ cols →
  Forall (within cols) l → Forall (within cols) (join_rows_step years l r).
Proof.
  intros ??? Hl. unfold join_rows_step. rewrite Forall_app, !Forall_fmap. split.
  - eapply Forall_impl; [done|]. intros p Hp. by apply within_touch.
  - apply Forall_forall. intros y _. by apply within_fresh_row.
Qed.

Lemma within_foldl_join_rows_step cols years l table_rows :
  "country_code" ∈ cols → "year" ∈ cols → "temp" ∈ cols →
  Forall (within cols) l →
  Forall (within cols) (foldl (join_rows_step years) l table_rows).
Proof.
  intros ???. revert l. induction table_rows as [|r rest IH]; intros l Hl; [done|].
  simpl. by apply IH, within_join_rows_step.
Qed.

(** The loop over the rows of a table that has all the year columns. *)
Lemma foldM_join_row key y0 y1 tcols cols l table_rows :
  key ≠ "country_code" → key ≠ "year" → key ≠ "temp" →
  "country_code" ∈ cols → "year" ∈ cols → "temp" ∈ cols → key ∉ cols →
  Forall (within cols) l →
  "country_code" ∈ tcols → (∀ y, y ∈ seqZ y0 (y1 + 1 - y0) → pretty y ∈ tcols) →
  foldM (join_row key [y0; y1] tcols) {| columns := cols; rows := l |} table_rows
  = Ok {| columns := cols;
          rows := foldl (join_rows_step (seqZ y0 (y1 + 1 - y0))) l table_rows |}.
Proof.
  intros ??????? Hl ??. revert l Hl.
  induction table_rows as [|r rest IH]; intros l Hl; [done|].
  cbn [foldM foldl]. rewrite join_row_rows by done. rewrite ok_bind.
  apply IH. by apply within_join_rows_step.
Qed.

Lemma row_key_settle key p :
  key ≠ "country_code" → key ≠ "year" → row_key (settle key p) = row_key p.
Proof.
  intros. unfold row_key, settle.
  rewrite !lookup_delete_ne, !lookup_set_cell by done.
  by rewrite !decide_False.
Qed.

Lemma settle_key key p : key ≠ "temp" → settle key p !! key = p !! "temp".
Proof.
  intros. unfold settle. rewrite lookup_delete_ne, lookup_set_cell by done.
  by rewrite decide_True.
Qed.

Lemma settle_other key p c : c ≠ key → c ≠ "temp" → settle key p !! c = p !! c.
Proof.
  intros. unfold settle. rewrite lookup_delete_ne, lookup_set_cell by done.
  by rewrite decide_False.
Qed.

Lemma settle_temp key p : settle key p !! "temp" = None.
Proof. unfold settle. apply lookup_delete_eq. Qed.

Lemma elem_of_filter_ne (c c' : string) (cols : list string) :
  c ∈ filter (λ x, x ≠ c') cols ↔ c ∈ cols ∧ c ≠ c'.
Proof. rewrite list_elem_of_filter. tauto. Qed.

(** One pass of the loop over the indicator tables, on a panel that has
    the join columns, for a table that has all the year columns. *)
Lemma join_table_rows key y0 y1 frame data :
  key ≠ "country_code" → key ≠ "year" → key ≠ "temp" →
  "country_code" ∈ columns data → "year" ∈ columns data → key ∉ columns data →
  Forall (within (columns data)) (rows data) →
  "country_code" ∈ columns frame →
  (∀ y, y ∈ seqZ y0 (y1 + 1 - y0) → pretty y ∈ columns frame) →
  join_table [y0; y1] data (key, frame)
  = Ok {| columns := filter (λ c, c ≠ "temp")
                       (add_column key (add_column "temp" (columns data)));
          rows := settle key
                    <$> foldl (join_rows_step (seqZ y0 (y1 + 1 - y0)))
                          (delete "temp" <$> rows data) (rows frame) |}.
Proof.
  intros ??? Hcc Hyear Hkey Hwithin ??. unfold join_table, assign_nan.
  rewrite foldM_join_row; try done.
  - rewrite ok_bind. unfold assign_from. cbn [columns rows].
    rewrite decide_True by (apply elem_of_add_column; by right).
    rewrite ok_bind. unfold drop. cbn [columns rows].
    rewrite decide_True; cycle 1.
    { apply elem_of_add_column. left. apply elem_of_add_column. by right. }
    by rewrite <-list_fmap_compose.
  - apply elem_of_add_column. by left.
  - apply elem_of_add_column. by left.
  - apply elem_of_add_column. by right.
  - rewrite elem_of_add_column. by intros [?|?].
  - rewrite Forall_fmap. eapply Forall_impl; [done|].
    intros p Hp c Hc. simpl.
    destruct (decide (c = "temp")) as [->|?]; [apply lookup_delete_eq|].
    rewrite lookup_delete_ne by done. apply Hp.
    intros Hin. apply Hc, elem_of_add_column. by left.
Qed.

(** What one pass of the loop over the tables makes of the panel. *)
Record joined (years : list Z) (data : DataFrame) (key : string)
    (table_rows : list row) (data' : DataFrame) : Prop := {
  joined_columns : ∀ c,
    c ∈ columns data' ↔ (c ∈ columns data ∧ c ≠ "temp") ∨ c = key;
  joined_within : Forall (within (columns data')) (rows data');
  joined_NoDup : NoDup (row_key <$> rows data');
  joined_keys : ∀ k,
    k ∈ row_key <$> rows data' ↔
    k ∈ row_key <$> rows data ∨
    ∃ r y, r ∈ table_rows ∧ y ∈ years ∧ k = (r !! "country_code", Some (num y));
  joined_value : ∀ p,
    p ∈ rows data' → p !! key = table_value years table_rows (row_key p);
  joined_other : ∀ p c, p ∈ rows data' → c ≠ "temp" → c ≠ key →
    (∃ q, q ∈ rows data ∧ row_key q = row_key p ∧ q !! c = p !! c) ∨
    ((row_key p ∉ row_key <$> rows data) ∧
     (c ≠ "country_code" → c ≠ "year" → p !! c = None));
}.

Lemma row_key_delete_temp p : row_key (delete "temp" p) = row_key p.
Proof. unfold row_key. by rewrite !lookup_delete_ne. Qed.

Lemma join_table_joined key y0 y1 frame data :
  key ≠ "country_code" → key ≠ "year" → key ≠ "temp" →
  "country_code" ∈ columns data → "year" ∈ columns data → key ∉ columns data →
  Forall (within (columns data)) (rows data) →
  NoDup (row_key <$> rows data) →
  "country_code" ∈ columns frame →
  (∀ y, y ∈ seqZ y0 (y1 + 1 - y0) → pretty y ∈ columns frame) →
  ∃ data',
    join_table [y0; y1] data (key, frame) = Ok data' ∧
    joined (seqZ y0 (y1 + 1 - y0)) data key (rows frame) data'.
Proof.
  intros Hk1 Hk2 Hk3 Hcc Hyear Hkey Hwithin Hnodup Htcc Htyears.
  eexists. split; [by apply join_table_rows|].
  set (years := seqZ y0 (y1 + 1 - y0)).
  set (l0 := delete "temp" <$> rows data).
  assert (Hkeys0 : row_key <$> l0 = row_key <$> rows data).
  { unfold l0. rewrite <-list_fmap_compose. apply list_fmap_ext.
    intros i p _. apply row_key_delete_temp. }
  destruct (loop_inv_foldl years l0 (NoDup_seqZ _ _) [] l0 (rows frame))
    as [Hinv1 Hinv2 Hinv3 Hinv4].
  { apply loop_inv_init.
    - by rewrite Hkeys0.
    - unfold l0. rewrite Forall_fmap. apply Forall_forall. intros p _.
      apply lookup_delete_eq. }
  rewrite app_nil_l in *. rewrite Hkeys0 in *.
  set (l := foldl (join_rows_step years) l0 (rows frame)) in *.
  assert (Hkeys : row_key <$> (settle key <$> l) = row_key <$> l).
  { rewrite <-list_fmap_compose. apply list_fmap_ext.
    intros i p _. by apply row_key_settle. }
  assert (Hl : Forall (within (add_column "temp" (columns data))) l).
  { apply within_foldl_join_rows_step.
    - apply elem_of_add_column. by left.
    - apply elem_of_add_column. by left.
    - apply elem_of_add_column. by right.
    - unfold l0. rewrite Forall_fmap. eapply Forall_impl; [done|].
      intros p Hp c Hc. simpl.
      destruct (decide (c = "temp")) as [->|?]; [apply lookup_delete_eq|].
      rewrite lookup_delete_ne by done. apply Hp.
      intros Hin. apply Hc, elem_of_add_column. by left. }
  split; cbn [columns rows].
  - intros c. rewrite elem_of_filter_ne, !elem_of_add_column. split.
    + intros [[[?| ->]| ->] ?]; auto. done.
    + intros [[? ?]| ->]; auto.
  - rewrite Forall_fmap. eapply Forall_impl; [exact Hl|].
    intros p Hp c Hc. simpl.
    destruct (decide (c = "temp")) as [->|Htemp]; [apply settle_temp|].
    assert (c ≠ key).
    { intros ->. apply Hc, elem_of_filter_ne. split; [|done].
      apply elem_of_add_column. by right. }
    rewrite settle_other by done. apply Hp. intros Hin. apply Hc.
    apply elem_of_filter_ne. split; [|done]. apply elem_of_add_column. by left.
  - by rewrite Hkeys.
  - intros k. rewrite Hkeys. apply Hinv2.
  - intros p' (p & -> & Hp)%list_elem_of_fmap.
    rewrite settle_key, row_key_settle by done. by apply Hinv3.
  - intros p' c (p & -> & Hp)%list_elem_of_fmap Hc1 Hc2.
    rewrite settle_other, row_key_settle by done.
    destruct (Hinv4 p c Hp Hc1) as [(q & Hq & Hqkey & Hqc)|?]; [left|by right].
    apply list_elem_of_fmap in Hq as (q0 & -> & Hq0).
    exists q0. split; [done|].
    rewrite row_key_delete_temp in Hqkey. rewrite lookup_delete_ne in Hqc by done.
    done.
Qed.

(** ** Panel joiner: the whole dictionary *)

(** A country-year panel: it has the join columns, its rows hold
    values in its columns only, and no two rows are for the same
    country and year. *)
Record is_panel (data : DataFrame) : Prop := {
  panel_country_code : "country_code" ∈ columns data;
  panel_year : "year" ∈ columns data;
  panel_within : Forall (within (columns data)) (rows data);
  panel_NoDup : NoDup (row_key <$> rows data);
}.

(** An entry of the dictionary that can be joined into the panel
    [base] for the years [y0..y1]: the name of the indicator is a new
    column, and the table has the country code and a column for every
    year. *)
Record is_indicator (y0 y1 : Z) (base : DataFrame) (entry : string * DataFrame)
  : Prop := {
  indicator_new : entry.1 ∉ columns base;
  indicator_not_country_code : entry.1 ≠ "country_code";
  indicator_not_year : entry.1 ≠ "year";
  indicator_not_temp : entry.1 ≠ "temp";
  indicator_country_code : "country_code" ∈ columns entry.2;
  indicator_years : ∀ y, (y0 ≤ y ≤ y1)%Z → pretty y ∈ columns entry.2;
}.

(** What holds of the panel after the tables [done]. *)
Record panel_inv (years : list Z) (base : DataFrame)
    (done : list (string * DataFrame)) (data : DataFrame) : Prop := {
  pinv_panel : is_panel data;
  pinv_columns : ∀ c, c ∈ columns data → c ∈ columns base ∨ c ∈ done.*1;
  pinv_keys : ∀ k,
    k ∈ row_key <$> rows data ↔
    k ∈ row_key <$> rows base ∨
    ∃ entry r y, entry ∈ done ∧ r ∈ rows entry.2 ∧ y ∈ years ∧
                 k = (r !! "country_code", Some (num y));
  pinv_value : ∀ entry p,
    entry ∈ done → p ∈ rows data →
    p !! entry.1 = table_value years (rows entry.2) (row_key p);
}.

Lemma panel_inv_init years base : is_panel base → panel_inv years base [] base.
Proof.
  intros Hbase. split.
  - done.
  - intros c ?. by left.
  - intros k. split; [by left|].
    intros [?|(entry & ? & ? & Hentry & _)]; [done|]. by inv Hentry.
  - intros entry p Hentry. by inv Hentry.
Qed.

Lemma panel_inv_step y0 y1 base done data entry :
  panel_inv (seqZ y0 (y1 + 1 - y0)) base done data →
  Forall (is_indicator y0 y1 base) done →
  is_indicator y0 y1 base entry → entry.1 ∉ done.*1 →
  ∃ data',
    join_table [y0; y1] data entry = Ok data' ∧
    panel_inv (seqZ y0 (y1 + 1 - y0)) base (done ++ [entry]) data'.
Proof.
  intros [[Hcc Hyear Hwithin Hnodup] Hcols Hkeys Hvalue] Hdone Hentry Hnew.
  destruct entry as [key frame]. destruct Hentry as [Hk0 Hk1 Hk2 Hk3 Htcc Htyears].
  simpl in *.
  destruct (join_table_joined key y0 y1 frame data) as (data' & Hjoin & Hjoined);
    try done.
  { intros [?|?]%Hcols; done. }
  { intros y Hy%elem_of_seqZ. apply Htyears. lia. }
  exists data'. split; [done|].
  destruct Hjoined as [Hj1 Hj2 Hj3 Hj4 Hj5 Hj6]. split.
  - split; [| |done..].
    + apply Hj1. left. split; [done|]. done.
    + apply Hj1. left. split; [done|]. done.
  - intros c [[Hc _]| ->]%Hj1.
    + rewrite fmap_app, elem_of_app. destruct (Hcols c Hc); auto.
    + right. rewrite fmap_app, elem_of_app. right. simpl. left.
  - intros k. rewrite Hj4, Hkeys. split.
    + intros [[?|(e & r & y & He & Hr & Hy & ->)]|(r & y & Hr & Hy & ->)].
      * by left.
      * right. exists e, r, y. split_and!; [|done..]. apply elem_of_app. by left.
      * right. exists (key, frame), r, y. split_and!; [|done..].
        apply elem_of_app. right. left.
    + intros [?|(e & r & y & He & Hr & Hy & ->)]; [by left; left|].
      apply elem_of_app in He as [He|He].
      * left. right. by exists e, r, y.
      * apply list_elem_of_singleton in He as ->. right. by exists r, y.
  - intros e p [He|He]%elem_of_app Hp.
    + assert (Hne : e.1 ≠ key).
      { intros <-. apply Hnew, list_elem_of_fmap. by exists e. }
      rewrite Forall_forall in Hdone. destruct (Hdone e He) as [_ _ _ Htemp _ _].
      destruct (Hj6 p e.1 Hp Htemp Hne) as [(q & Hq & Hqkey & Hqv)|[Hfresh Hnone]].
      * rewrite <-Hqv, <-Hqkey. by apply Hvalue.
      * destruct (Hdone e He) as [_ ? ? _ _ _]. rewrite Hnone by done.
        symmetry. apply table_value_no_row. intros r Hr Hcode.
        assert (Hin : row_key p ∈ row_key <$> rows data').
        { apply list_elem_of_fmap. by exists p. }
        apply Hj4 in Hin as [?|(r' & y & Hr' & Hy & Hkey)]; [done|].
        apply Hfresh, Hkeys. right. exists e, r, y. split_and!; [done..|].
        rewrite Hkey in *. simpl in Hcode. by rewrite Hcode.
    + apply list_elem_of_singleton in He as ->. simpl. by apply Hj5.
Qed.

Lemma panel_inv_foldM y0 y1 base done data rest :
  panel_inv (seqZ y0 (y1 + 1 - y0)) base done data →
  Forall (is_indicator y0 y1 base) (done ++ rest) →
  NoDup (done ++ rest).*1 →
  ∃ panel,
    foldM (join_table [y0; y1]) data rest = Ok panel ∧
    panel_inv (seqZ y0 (y1 + 1 - y0)) base (done ++ rest) panel.
Proof.
  revert done data. induction rest as [|entry rest IH]; intros done data Hinv Hall Hnodup.
  - exists data. by rewrite app_nil_r.
  - rewrite (assoc_L (++) done [entry] rest : done ++ entry :: rest = (done ++ [entry]) ++ rest)
      in *.
    apply Forall_app in Hall as Hall'. destruct Hall' as [Hall' _].
    apply Forall_app in Hall' as [Hdone Hentry].
    apply Forall_cons in Hentry as [Hentry _].
    assert (Hnew : entry.1 ∉ done.*1).
    { rewrite !fmap_app in Hnodup. apply NoDup_app in Hnodup as [Hnodup _].
      apply NoDup_app in Hnodup as (_ & Hdisj & _).
      intros Hin. apply (Hdisj _ Hin). left. }
    destruct (panel_inv_step y0 y1 base done data entry Hinv Hdone Hentry Hnew)
      as (data' & Hjoin & Hinv').
    cbn [foldM]. rewrite Hjoin, ok_bind. by apply IH.
Qed.

(** The joiner on a panel and a dictionary of indicator tables. *)
Lemma join_data_panel_inv y0 y1 base dictionary :
  is_panel base →
  Forall (is_indicator y0 y1 base) dictionary →
  NoDup dictionary.*1 →
  ∃ panel,
    join_data dictionary base [y0; y1] = Ok panel ∧
    panel_inv (seqZ y0 (y1 + 1 - y0)) base dictionary panel.
Proof.
  intros Hbase Hall Hnodup.
  apply (panel_inv_foldM y0 y1 base [] base dictionary); [|done..].
  by apply panel_inv_init.
Qed.

Lemma filter_unique {A B} `{EqDecision B} (f : A → B) (l : list A) x :
  NoDup (f <$> l) → x ∈ l → filter (λ z, f z = f x) l = [x].
Proof.
  induction l as [|z l IH]; intros Hnodup Hx; [by inv Hx|].
  rewrite fmap_cons, NoDup_cons in Hnodup. destruct Hnodup as [Hnotin Hnodup].
  assert (Hnone : ∀ k, k ∉ f <$> l → filter (λ z, f z = k) l = []).
  { clear. intros k Hk. induction l as [|z l IH]; [done|].
    rewrite fmap_cons, not_elem_of_cons in Hk. destruct Hk as [Hne Hk].
    rewrite filter_cons_False by done. by apply IH. }
  apply elem_of_cons in Hx as [->|Hx].
  - rewrite filter_cons_True by done. f_equal. by apply Hnone.
  - rewrite filter_cons_False; [by apply IH|].
    intros Heq. apply Hnotin. rewrite Heq. apply list_elem_of_fmap. by exists x.
Qed.

Lemma first_value_singleton v : first_value [v] = v.
Proof. by destruct v. Qed.

(** In a table with one row per country the value of a country and a
    year of the range is the cell of the year in the row of the country. *)
Lemma table_value_unique years table_rows r (y : Z) :
  NoDup ((.!! "country_code") <$> table_rows) → r ∈ table_rows → y ∈ years →
  table_value years table_rows (r !! "country_code", Some (num y)) = r !! pretty y.
Proof.
  intros Hnodup Hr Hy. unfold table_value. cbn [fst snd].
  rewrite (filter_unique (.!! "country_code")) by done.
  by rewrite fmap_cons, fmap_nil, first_value_singleton, year_value_in.
Qed.

Lemma panel_inv_one_row years base done panel entry r (y : Z) :
  panel_inv years base done panel →
  entry ∈ done → r ∈ rows entry.2 → y ∈ years →
  ∃ p, filter (λ q, row_key q = (r !! "country_code", Some (num y))) (rows panel) = [p] ∧
       p !! entry.1 = table_value years (rows entry.2) (r !! "country_code", Some (num y)).
Proof.
  intros [[_ _ _ Hnodup] _ Hkeys Hvalue] Hentry Hr Hy.
  assert (Hin : (r !! "country_code", Some (num y)) ∈ row_key <$> rows panel).
  { apply Hkeys. right. by exists entry, r, y. }
  apply list_elem_of_fmap in Hin as (p & Hkey & Hp).
  exists p. rewrite Hkey. split; [by apply filter_unique|by apply Hvalue].
Qed.



Lemma within_dom cols (r : row) :
  dom r ⊆ (list_to_set cols : gset string) → within cols r.
Proof.
  intros Hdom c Hc. apply not_elem_of_dom. intros Hin.
  apply Hc. apply Hdom in Hin. by apply elem_of_list_to_set in Hin.
Qed.

Definition finland_2001 : DataFrame :=
  {| columns := ["country_code"; "2001"];
     rows := [ {[ "country_code" := VStr "FI"; "2001" := num 2 ]} ] |}.


Definition regions : DataFrame :=
  {| columns := ["country_code"; "year"; "region"];
     rows := [ {[ "country_code" := VStr "FI"; "year" := num 2000;
                  "region" := VStr "Nordic" ]} ] |}.

Definition early_row : row := {[ "country_code" := VStr "FI"; "2000" := num 1 ]}.
Definition late_row : row := {[ "country_code" := VStr "FI"; "2001" := num 2 ]}.
Definition both_years : list string := ["country_code"; "2000"; "2001"].

Lemma is_panel_regions : is_panel regions.
Proof.
  split; [compute_done..| |compute_done].
  apply Forall_cons_2; [|apply Forall_nil_2]. apply within_dom. compute_done.
Defined.

Lemma is_indicator_both_years key rows :
  key ∉ columns regions → key ≠ "country_code" → key ≠ "year" → key ≠ "temp" →
  is_indicator 2000 2001 regions (key, {| columns := both_years; rows := rows |}).
Proof.
  intros. split; try done; simpl.
  - compute_done.
  - intros y Hy. assert (y = 2000 ∨ y = 2001)%Z as [-> | ->] by lia; compute_done.
Defined.



(** * Further properties of the module *)

(** ** Code/name lookup: from a code to its name and back *)

Lemma code_to_country_elem (mapping : list (string * string)) code name :
  code_to_country code mapping = Some name → (code, name) ∈ mapping.
Proof.
  induction mapping as [|[k v] rest IH]; simpl; [done|].
  destruct (decide (k = code)) as [->|Hne].
  - intros [= ->]. left.
  - intros Hrest. right. by apply IH.
Qed.

Lemma NoDup_fmap_elem_inj {A B} (f : A → B) (l : list A) x y :
  NoDup (f <$> l) → x ∈ l → y ∈ l → f x = f y → x = y.
Proof.
  induction l as [|z l IH]; intros Hnodup Hx Hy Heq; [by inv Hx|].
  rewrite fmap_cons, NoDup_cons in Hnodup. destruct Hnodup as [Hnotin Hnodup].
  apply elem_of_cons in Hx as [->|Hx]; apply elem_of_cons in Hy as [->|Hy].
  - done.
  - exfalso. apply Hnotin. rewrite Heq. apply list_elem_of_fmap. by exists y.
  - exfalso. apply Hnotin. rewrite <-Heq. apply list_elem_of_fmap. by exists x.
  - by apply IH.
Qed.

(** X1: when no two codes of the mapping have the same name, looking up
    the name of a code of the mapping and then the code of that name
    gives the code back. *)
Theorem code_round_trip (mapping : list (string * string)) code :
  NoDup mapping.*2 → code ∈ mapping.*1 →
  code_to_country code mapping ≫= (λ name, country_to_code name mapping) = Some code.
Proof.
  intros Hnames Hcode.
  destruct (code_to_country code mapping) as [name|] eqn:Hname.
  - simpl. apply code_to_country_elem in Hname.
    destruct (country_to_code name mapping) as [key|] eqn:Hkey.
    + apply country_to_code_Some in Hkey as (before & after & Hmapping & _).
      assert (Hin : (key, name) ∈ mapping) by (rewrite Hmapping; set_solver).
      by pose proof (NoDup_fmap_elem_inj snd mapping _ _ Hnames Hin Hname eq_refl)
        as [= ->].
    + apply country_to_code_None in Hkey. destruct Hkey.
      apply list_elem_of_fmap. by exists (code, name).
  - by apply code_to_country_None in Hname.
Qed.

Lemma code_round_trip_witness :
  NoDup nordic_codes.*2 ∧ "SE" ∈ nordic_codes.*1 ∧
  code_to_country "SE" nordic_codes ≫= (λ name, country_to_code name nordic_codes)
    = Some "SE".
Proof.
  assert (H1 : NoDup nordic_codes.*2) by compute_done.
  assert (H2 : "SE" ∈ nordic_codes.*1) by compute_done.
  exact (conj H1 (conj H2 (code_round_trip nordic_codes "SE" H1 H2))).
Defined.

(** ** Panel joiner: the rows and the cells of the joined panel *)

Lemma elem_of_year_range y0 y1 (y : Z) :
  y ∈ seqZ y0 (y1 + 1 - y0) ↔ (y0 ≤ y ≤ y1)%Z.
Proof. rewrite elem_of_seqZ. lia. Qed.


Lemma year_value_outside years r (yc : cell) :
  (∀ y, y ∈ years → yc ≠ Some (num y)) → year_value years r yc = None.
Proof.
  intros Hout. unfold year_value.
  destruct (list_find _ years) as [[i y']|] eqn:Hfind; [|done].
  apply list_find_Some in Hfind as (Hy' & Heq & _).
  destruct (Hout y'); [|done]. by eapply list_elem_of_lookup_2.
Qed.

Lemma first_value_None l : Forall (λ v : cell, v = None) l → first_value l = None.
Proof. induction 1 as [|v l -> _ IH]; [done|]. done. Qed.



(** Rows of the base panel keep their cells; rows that are new have
    none in the columns of the base panel. *)
Definition base_kept (base data : DataFrame) : Prop :=
  ∀ p c, p ∈ rows data → c ∈ columns base → c ≠ "temp" →
    (∃ q, q ∈ rows base ∧ row_key q = row_key p ∧ q !! c = p !! c) ∨
    ((row_key p ∉ row_key <$> rows base) ∧
     (c ≠ "country_code" → c ≠ "year" → p !! c = None)).

Lemma base_kept_step y0 y1 base done data entry data' :
  panel_inv (seqZ y0 (y1 + 1 - y0)) base done data →
  base_kept base data →
  is_indicator y0 y1 base entry → entry.1 ∉ done.*1 →
  join_table [y0; y1] data entry = Ok data' →
  base_kept base data'.
Proof.
  intros [[Hcc Hyear Hwithin Hnodup] Hcols Hkeys _] Hkept Hentry Hnew Hjoin.
  destruct entry as [key frame]. destruct Hentry as [Hk0 Hk1 Hk2 Hk3 Htcc Htyears].
  cbn [fst snd] in *.
  destruct (join_table_joined key y0 y1 frame data) as (data'' & Hjoin' & Hjoined);
    try done.
  { intros [?|?]%Hcols; done. }
  { intros y Hy%elem_of_year_range. by apply Htyears. }
  rewrite Hjoin in Hjoin'. injection Hjoin' as <-.
  destruct Hjoined as [_ _ _ _ _ Hother].
  intros p c Hp Hc Htemp.
  assert (c ≠ key) by (by intros ->).
  destruct (Hother p c Hp Htemp) as [(q & Hq & Hqkey & Hqc)|[Hfresh Hnone]]; [done| |].
  - rewrite <-Hqkey, <-Hqc. by apply Hkept.
  - right. split; [|done]. intros Hin. apply Hfresh, Hkeys. by left.
Qed.

Lemma base_kept_foldM y0 y1 base done data rest panel :
  panel_inv (seqZ y0 (y1 + 1 - y0)) base done data →
  base_kept base data →
  Forall (is_indicator y0 y1 base) (done ++ rest) →
  NoDup (done ++ rest).*1 →
  foldM (join_table [y0; y1]) data rest = Ok panel →
  base_kept base panel.
Proof.
  revert done data. induction rest as [|entry rest IH];
    intros done data Hinv Hkept Hall Hnodup Hfold.
  - simpl in Hfold. by simplify_eq.
  - rewrite (assoc_L (++) done [entry] rest : done ++ entry :: rest = (done ++ [entry]) ++ rest)
      in *.
    apply Forall_app in Hall as Hall'. destruct Hall' as [Hall' _].
    apply Forall_app in Hall' as [Hdone Hentry].
    apply Forall_cons in Hentry as [Hentry _].
    assert (Hnew : entry.1 ∉ done.*1).
    { rewrite !fmap_app in Hnodup. apply NoDup_app in Hnodup as [Hnodup _].
      apply NoDup_app in Hnodup as (_ & Hdisj & _).
      intros Hin. apply (Hdisj _ Hin). left. }
    destruct (panel_inv_step y0 y1 base done data entry Hinv Hdone Hentry Hnew)
      as (data' & Hjoin & Hinv').
    cbn [foldM] in Hfold. rewrite Hjoin, ok_bind in Hfold.
    apply (IH (done ++ [entry]) data'); try done.
    exact (base_kept_step y0 y1 base done data entry data' Hinv Hkept Hentry Hnew Hjoin).
Qed.


Definition two_tables : list (string * DataFrame) :=
  [("A", {| columns := both_years; rows := [early_row] |});
   ("B", {| columns := both_years; rows := [late_row; early_row] |})].

Lemma two_tables_indicators : Forall (is_indicator 2000 2001 regions) two_tables.
Proof.
  apply Forall_cons_2; [|apply Forall_cons_2; [|apply Forall_nil_2]];
    apply is_indicator_both_years; compute_done.
Defined.

Lemma two_tables_NoDup : NoDup two_tables.*1.
Proof. compute_done. Defined.



Definition one_row_tables : list (string * DataFrame) :=
  [("A", {| columns := both_years; rows := [early_row] |});
   ("B", {| columns := both_years; rows := [late_row] |})].

Lemma one_row_tables_indicators : Forall (is_indicator 2000 2001 regions) one_row_tables.
Proof.
  apply Forall_cons_2; [|apply Forall_cons_2; [|apply Forall_nil_2]];
    apply is_indicator_both_years; compute_done.
Defined.



(** ** Panel joiner: the column [temp], tables without rows, failures *)

Lemma foldM_Ok_last {A B} (P : A → Prop) (f : A → B → result A) l a b :
  l ≠ [] → foldM f a l = Ok b →
  (∀ a x a', x ∈ l → f a x = Ok a' → P a') → P b.
Proof.
  revert a. induction l as [|x l IH]; intros a Hne Hfold Hstep; [done|].
  cbn [foldM] in Hfold. apply bind_Ok in Hfold as (a' & Hfa & Hfold).
  destruct l as [|x' l].
  - simpl in Hfold. simplify_eq. eapply Hstep; [left|done].
  - apply (IH a'); [done|done|]. intros a1 x1 a2 Hin. apply Hstep. by right.
Qed.

Lemma drop_rows c data data' :
  drop c data = Ok data' → Forall (λ p, p !! c = None) (rows data').
Proof.
  unfold drop. case_decide; [|done]. intros [= <-]. simpl.
  rewrite Forall_fmap. apply Forall_forall. intros p _. apply lookup_delete_eq.
Qed.

Lemma not_elem_of_filter_ne (c : string) (cols : list string) :
  c ∉ filter (λ x, x ≠ c) cols.
Proof. rewrite list_elem_of_filter. by intros [? _]. Qed.

Lemma join_table_no_temp year_list data entry data' :
  join_table year_list data entry = Ok data' →
  ("temp" ∉ columns data') ∧ Forall (λ p, p !! "temp" = None) (rows data').
Proof.
  destruct entry as [key frame]. unfold join_table. intros Hjoin.
  apply bind_Ok in Hjoin as (data1 & _ & Hjoin).
  apply bind_Ok in Hjoin as (data2 & _ & Hdrop).
  split; [|by eapply drop_rows].
  rewrite (drop_columns _ _ _ Hdrop). apply not_elem_of_filter_ne.
Qed.

(** X6: the column [temp] is the joiner's scratch column: whenever at
    least one table is joined, the panel that comes back has no column
    [temp] and no value under that name, whatever the base panel had
    there. *)
Theorem join_data_drops_temp dictionary data year_list panel :
  dictionary ≠ [] →
  join_data dictionary data year_list = Ok panel →
  ("temp" ∉ columns panel) ∧ Forall (λ p, p !! "temp" = None) (rows panel).
Proof.
  intros Hne Hjoin. unfold join_data in Hjoin.
  apply (foldM_Ok_last
           (λ d, ("temp" ∉ columns d) ∧ Forall (λ p, p !! "temp" = None) (rows d))
           _ _ _ _ Hne Hjoin).
  intros a entry a' _. apply join_table_no_temp.
Qed.

Definition temperatures : DataFrame :=
  {| columns := ["country_code"; "year"; "temp"];
     rows := [ {[ "country_code" := VStr "FI"; "year" := num 2000; "temp" := num 5 ]} ] |}.

Definition temperatures_joined : DataFrame :=
  {| columns := ["country_code"; "year"; "A"];
     rows := [ {[ "country_code" := VStr "FI"; "year" := num 2000; "A" := num 1 ]} ] |}.

Lemma join_data_drops_temp_witness :
  join_data [("A", finland_2000)] temperatures [2000; 2000]%Z = Ok temperatures_joined ∧
  ("temp" ∉ columns temperatures_joined) ∧
  Forall (λ p, p !! "temp" = None) (rows temperatures_joined).
Proof.
  assert (Hjoin : join_data [("A", finland_2000)] temperatures [2000; 2000]%Z
                  = Ok temperatures_joined) by (vm_compute; reflexivity).
  split; [exact Hjoin|].
  by apply (join_data_drops_temp [("A", finland_2000)] temperatures [2000; 2000]%Z).
Defined.

Lemma join_row_drops_key key year_list cols data r data' :
  join_row key year_list cols data r = Ok data' → key ∉ columns data'.
Proof.
  unfold join_row. intros Hjoin.
  apply bind_Ok in Hjoin as (rowcode & _ & Hjoin).
  apply bind_Ok in Hjoin as (y0 & _ & Hjoin).
  apply bind_Ok in Hjoin as (y1 & _ & Hjoin).
  apply bind_Ok in Hjoin as (vals & _ & Hjoin).
  apply bind_Ok in Hjoin as (merged & _ & Hjoin).
  apply bind_Ok in Hjoin as (filled & _ & Hdrop).
  rewrite (drop_columns _ _ _ Hdrop). apply not_elem_of_filter_ne.
Qed.

Lemma join_table_named_temp year_list data frame :
  rows frame ≠ [] → ∃ e, join_table year_list data ("temp", frame) = Raise e.
Proof.
  intros Hrows. unfold join_table.
  destruct (foldM _ _ (rows frame)) as [data1|e] eqn:Hfold; [|by eexists].
  rewrite ok_bind.
  assert (Htemp : "temp" ∉ columns data1).
  { apply (foldM_Ok_last (λ d, "temp" ∉ columns d) _ _ _ _ Hrows Hfold).
    intros a r a' _. apply join_row_drops_key. }
  unfold assign_from. rewrite decide_False by done. by eexists.
Qed.



(** X8: a table without rows never makes the joiner fail, whatever the
    year list (it is not even read): the table's name becomes a column
    without values, wiping a column of that name the panel may have
    had, and the other columns keep their cells. *)
Theorem join_data_empty_table key frame data year_list :
  rows frame = [] → key ≠ "temp" →
  ∃ panel,
    join_data [(key, frame)] data year_list = Ok panel ∧
    (∀ c, c ∈ columns panel ↔ (c ∈ columns data ∧ c ≠ "temp") ∨ c = key) ∧
    rows panel = (λ p, delete "temp" (delete key p)) <$> rows data.
Proof.
  intros Hrows Hkey. unfold join_data, join_table. cbn [foldM].
  rewrite Hrows. cbn [foldM]. rewrite ok_bind.
  unfold assign_from, assign_nan. cbn [columns rows].
  rewrite decide_True by (apply elem_of_add_column; by right).
  rewrite ok_bind. unfold drop. cbn [columns rows].
  rewrite decide_True
    by (apply elem_of_add_column; left; apply elem_of_add_column; by right).
  rewrite ok_bind. eexists. split; [done|]. cbn [columns rows]. split.
  - intros c. rewrite list_elem_of_filter, !elem_of_add_column. split.
    + intros [? [[?| ->]| ->]]; auto. done.
    + intros [[? ?]| ->]; auto.
  - rewrite <-!list_fmap_compose. apply list_fmap_ext. intros i p _. simpl.
    apply map_eq. intros c.
    destruct (decide (c = "temp")) as [->|Htemp]; [by rewrite !lookup_delete_eq|].
    rewrite (lookup_delete_ne _ "temp" c) by done.
    rewrite lookup_set_cell, lookup_delete_eq.
    rewrite (lookup_delete_ne (delete key p) "temp" c) by done.
    destruct (decide (key = c)) as [->|Hc].
    + by rewrite lookup_delete_eq.
    + by rewrite !lookup_delete_ne.
Qed.

Definition no_rows : DataFrame := {| columns := ["country_code"]; rows := [] |}.

Lemma join_data_empty_table_witness :
  ∃ panel,
    join_data [("A", no_rows)] regions [] = Ok panel ∧
    (∀ c, c ∈ columns panel ↔ (c ∈ columns regions ∧ c ≠ "temp") ∨ c = "A") ∧
    rows panel = (λ p, delete "temp" (delete "A" p)) <$> rows regions.
Proof. apply (join_data_empty_table "A" no_rows regions []); compute_done. Defined.

Lemma forM_loc_first_missing cols r (before after : list Z) (y : Z) :
  (∀ y', y' ∈ before → pretty y' ∈ cols) → pretty y ∉ cols →
  forM (λ year, loc cols r (pretty year)) (before ++ y :: after)
  = Raise (KeyError (pretty y)).
Proof.
  intros Hbefore Hy. induction before as [|y' before IH]; cbn [forM app].
  - by rewrite loc_not_in.
  - rewrite loc_in by (apply Hbefore; left). rewrite ok_bind, IH; [done|].
    intros y'' Hy''. apply Hbefore. by right.
Qed.

Lemma year_range_split y0 y1 (y : Z) :
  (y0 ≤ y ≤ y1)%Z →
  seqZ y0 (y1 + 1 - y0) = seqZ y0 (y - y0) ++ y :: seqZ (y + 1) (y1 - y).
Proof.
  intros Hy.
  replace (y1 + 1 - y0)%Z with ((y - y0) + (y1 + 1 - y))%Z by lia.
  rewrite seqZ_app by lia. f_equal.
  replace (y0 + (y - y0))%Z with y by lia.
  rewrite seqZ_cons by lia. f_equal. f_equal; lia.
Qed.

(** X9: what stops the joiner at the first row of the first table.  The
    column [country_code] is read first, and its absence is a
    [KeyError] whatever the year list; then the first two entries of
    the year list, a shorter list being an [IndexError]; then the year
    columns in ascending order, the first one that is absent being the
    [KeyError] raised. *)
Theorem join_data_first_row_failure key frame rest data year_list r others :
  rows frame = r :: others →
  ("country_code" ∉ columns frame →
   join_data ((key, frame) :: rest) data year_list = Raise (KeyError "country_code")) ∧
  ("country_code" ∈ columns frame → (length year_list < 2)%nat →
   join_data ((key, frame) :: rest) data year_list = Raise IndexError) ∧
  (∀ y0 y1 more y,
     "country_code" ∈ columns frame → year_list = y0 :: y1 :: more →
     (y0 ≤ y ≤ y1)%Z → pretty y ∉ columns frame →
     (∀ y', (y0 ≤ y' < y)%Z → pretty y' ∈ columns frame) →
     join_data ((key, frame) :: rest) data year_list = Raise (KeyError (pretty y))).
Proof.
  intros Hrows. unfold join_data, join_table. cbn [foldM]. rewrite Hrows.
  cbn [foldM]. unfold join_row. split_and!.
  - intros Hcc. by rewrite loc_not_in.
  - intros Hcc Hlen. rewrite loc_in by done. rewrite ok_bind.
    destruct year_list as [|y0 [|y1 more]]; [done|done|]. simpl in Hlen. lia.
  - intros y0 y1 more y Hcc -> Hy Hmiss Hbefore.
    rewrite loc_in by done. rewrite ok_bind.
    change (item (y0 :: y1 :: more) 0) with (Ok y0). rewrite ok_bind.
    change (item (y0 :: y1 :: more) 1) with (Ok y1). rewrite ok_bind.
    rewrite (year_range_split y0 y1 y Hy), forM_loc_first_missing; [done| |done].
    intros y' Hy'%elem_of_seqZ. apply Hbefore. lia.
Qed.

Lemma join_data_first_row_failure_witness :
  join_data [("A", finland_2001)] empty_panel [2000; 2001]%Z
    = Raise (KeyError "2000") ∧
  join_data [("A", finland_2001)] empty_panel [2000]%Z = Raise IndexError ∧
  join_data [("A", {| columns := ["2000"]; rows := [early_row] |})] empty_panel []
    = Raise (KeyError "country_code").
Proof.
  split_and!.
  - apply (proj2 (proj2 (join_data_first_row_failure "A" finland_2001 [] empty_panel
                           [2000; 2001]%Z _ [] eq_refl)) 2000%Z 2001%Z [] 2000%Z);
      [compute_done|done|lia|compute_done|lia].
  - apply (proj1 (proj2 (join_data_first_row_failure "A" finland_2001 [] empty_panel
                           [2000]%Z _ [] eq_refl)));
      [compute_done|simpl; lia].
  - apply (proj1 (join_data_first_row_failure "A"
                    {| columns := ["2000"]; rows := [early_row] |} [] empty_panel
                    [] early_row [] eq_refl)).
    compute_done.
Defined.

Lemma filter_none_in {A} (P : A → Prop) `{∀ x, Decision (P x)} (l : list A) :
  Forall (λ x, ¬ P x) l → filter P l = [].
Proof.
  induction 1 as [|x l Hx _ IH]; [done|]. by rewrite filter_cons_False.
Qed.

(** X10: a base panel that has none of the columns [country_code],
    [year] and the indicator's name offers the merge no column to join
    on: the first row of the first table, complete as the table may be,
    ends the join with pandas' [MergeError]. *)
Theorem join_data_no_join_column key frame rest data y0 y1 more r others :
  rows frame = r :: others →
  "country_code" ∈ columns frame →
  (∀ y, (y0 ≤ y ≤ y1)%Z → pretty y ∈ columns frame) →
  key ≠ "temp" →
  "country_code" ∉ columns data → "year" ∉ columns data → key ∉ columns data →
  join_data ((key, frame) :: rest) data (y0 :: y1 :: more) = Raise MergeError.
Proof.
  intros Hrows Hcc Hyears Hkey Hdcc Hdyear Hdkey.
  unfold join_data, join_table. cbn [foldM]. rewrite Hrows. cbn [foldM].
  unfold join_row. rewrite loc_in by done. rewrite ok_bind.
  change (item (y0 :: y1 :: more) 0) with (Ok y0). rewrite ok_bind.
  change (item (y0 :: y1 :: more) 1) with (Ok y1). rewrite ok_bind.
  rewrite forM_loc_present
    by (intros y Hy%elem_of_year_range; by apply Hyears).
  rewrite ok_bind. unfold merge_outer. rewrite decide_True; [done|].
  apply filter_none_in, Forall_forall. cbn [columns dftemp assign_nan].
  intros c Hleft%elem_of_add_column Hright%elem_of_add_column.
  rewrite !elem_of_cons, elem_of_nil in Hright.
  destruct Hleft as [Hc|Hc], Hright as [[?|[?|[]]]|?]; by simplify_eq.
Qed.

Definition unkeyed : DataFrame :=
  {| columns := ["Country"; "Year"]; rows := [] |}.

Lemma join_data_no_join_column_witness :
  join_data [("A", finland_2000)] unkeyed [2000; 2000]%Z = Raise MergeError.
Proof.
  apply (join_data_no_join_column "A" finland_2000 [] unkeyed 2000 2000 []
           {[ "country_code" := VStr "FI"; "2000" := num 1 ]} []);
    try compute_done.
  intros y Hy. assert (y = 2000)%Z as -> by lia. compute_done.
Defined.

(** ** Weighted average *)

Definition sum_of (f : row → Qc) (l : list row) : Qc :=
  foldr (λ r s, f r + s)%Qc (Q2Qc 0) l.

Lemma mul_series_no_strings metric weight (group : list row) :
  Forall (λ r, ¬ is_str (r !! metric) ∧ ¬ is_str (r !! weight)) group →
  mul_series ((.!! metric) <$> group) ((.!! weight) <$> group)
  = Ok ((λ r, match r !! metric, r !! weight with
              | Some (VNum m), Some (VNum w) => Some (VNum (m * w)%Qc)
              | _, _ => None
              end) <$> group).
Proof.
  induction 1 as [|r g [Hm Hw] _ IH]; [done|].
  rewrite !fmap_cons. cbn [mul_series]. rewrite IH.
  by destruct (r !! metric) as [[m|]|], (r !! weight) as [[w|]|].
Qed.

Lemma sum_series_products metric weight (group : list row) :
  Forall (λ r, ¬ is_str (r !! metric) ∧ ¬ is_str (r !! weight)) group →
  sum_series ((λ r, match r !! metric, r !! weight with
                    | Some (VNum m), Some (VNum w) => Some (VNum (m * w)%Qc)
                    | _, _ => None
                    end) <$> group)
  = Ok (sum_of (λ r, number (r !! metric) * number (r !! weight))%Qc
          (filter (λ r, is_Some (r !! metric) ∧ is_Some (r !! weight)) group)).
Proof.
  induction 1 as [|r g [Hm Hw] _ IH]; [done|].
  rewrite fmap_cons, filter_cons. cbn [sum_series].
  destruct (r !! metric) as [[m|s]|] eqn:Hmetric; [|by destruct Hm|];
    (destruct (r !! weight) as [[w|t]|] eqn:Hweight; [|by destruct Hw|]);
    cbn [sum_series].
  - rewrite decide_True by (split; eexists; done).
    rewrite IH. cbn [sum_of foldr mbind result_bind]. by rewrite Hmetric, Hweight.
  - by rewrite decide_False by (by intros [_ [? ?]]).
  - by rewrite decide_False by (by intros [[? ?] _]).
  - by rewrite decide_False by (by intros [[? ?] _]).
Qed.

Lemma sum_series_weights weight (group : list row) :
  Forall (λ r, ¬ is_str (r !! weight)) group →
  sum_series ((.!! weight) <$> group)
  = Ok (sum_of (λ r, number (r !! weight)) (filter (λ r, is_Some (r !! weight)) group)).
Proof.
  induction 1 as [|r g Hw _ IH]; [done|].
  rewrite fmap_cons, filter_cons. cbn [sum_series].
  destruct (r !! weight) as [[w|t]|] eqn:Hweight; [| |].
  - rewrite decide_True by (by eexists). rewrite IH.
    cbn [sum_of foldr mbind result_bind]. by rewrite Hweight.
  - by destruct Hw.
  - by rewrite decide_False by (by intros [? ?]).
Qed.

Lemma wavg_sums cols group metric weight :
  metric ∈ cols → weight ∈ cols →
  Forall (λ r, ¬ is_str (r !! metric) ∧ ¬ is_str (r !! weight)) group →
  wavg {| columns := cols; rows := group |} metric weight
  = Ok (div_sums
          (sum_of (λ r, number (r !! metric) * number (r !! weight))%Qc
             (filter (λ r, is_Some (r !! metric) ∧ is_Some (r !! weight)) group))
          (sum_of (λ r, number (r !! weight))
             (filter (λ r, is_Some (r !! weight)) group))).
Proof.
  intros Hmetric Hweight Hcells. unfold wavg, getitem. cbn [columns rows].
  rewrite !decide_True by done. rewrite !ok_bind.
  rewrite mul_series_no_strings by done. rewrite ok_bind.
  rewrite sum_series_products by done. rewrite ok_bind.
  rewrite sum_series_weights; [done|].
  eapply Forall_impl; [done|]. by intros r [_ ?].
Qed.


Definition missing_metric : list row :=
  [ {[ "Population" := num 2; "GDP" := num 10 ]};
    {[ "Population" := num 8 ]} ].


Lemma sum_of_le (f g : row → Qc) (l : list row) :
  Forall (λ r, f r ≤ g r)%Qc l → (sum_of f l ≤ sum_of g l)%Qc.
Proof.
  induction 1 as [|r l Hr _ IH]; [apply Qcle_refl|].
  cbn [sum_of foldr]. by apply Qcplus_le_compat.
Qed.

Lemma sum_of_scale (c : Qc) (f : row → Qc) (l : list row) :
  sum_of (λ r, c * f r)%Qc l = (c * sum_of f l)%Qc.
Proof.
  induction l as [|r l IH]; cbn [sum_of foldr]; [ring|].
  fold (sum_of (λ r, c * f r)%Qc l). fold (sum_of f l). rewrite IH. ring.
Qed.


Definition two_numbers : list row :=
  [ {[ "Population" := num 2; "GDP" := num 10 ]};
    {[ "Population" := num 8; "GDP" := num 20 ]} ].


(** ** Continent aggregate: the order of the series, a continent without rows *)

Lemma cell_le_Some_antisym (a b : val) :
  cell_le (Some a) (Some b) → cell_le (Some b) (Some a) → a = b.
Proof. intros H1 H2. by pose proof (cell_le_antisym _ _ H1 H2) as [= ->]. Qed.

#[global] Instance key_le_total : Total key_le.
Proof.
  intros [a1 b1] [a2 b2]. unfold key_le. cbn [fst snd].
  repeat case_decide; simplify_eq; apply cell_le_total.
Qed.

#[global] Instance key_le_trans : Transitive key_le.
Proof.
  intros [a1 b1] [a2 b2] [a3 b3]. unfold key_le. cbn [fst snd].
  repeat case_decide; simplify_eq; try done.
  - apply cell_le_trans.
  - intros Hle12 Hle21. exfalso. by eauto using cell_le_Some_antisym.
  - apply cell_le_trans.
Qed.

Lemma StronglySorted_filter {A} (R : relation A) (P : A → Prop)
    `{∀ x, Decision (P x)} (l : list A) :
  StronglySorted R l → StronglySorted R (filter P l).
Proof.
  induction 1 as [|x l Hsorted IH Hall]; [constructor|].
  rewrite filter_cons. case_decide; [|done].
  constructor; [done|]. apply Forall_forall.
  intros y [_ Hy]%list_elem_of_filter. rewrite Forall_forall in Hall. by apply Hall.
Qed.

(** [continent_stats] up to the choice of the continent, on a panel
    that has the four columns and no strings in the metric and the
    population. *)
Lemma continent_stats_select cont data stat :
  stat ∈ columns data → "Population" ∈ columns data →
  "cont_code" ∈ columns data → "Year" ∈ columns data →
  (∀ r, r ∈ rows data → ¬ is_str (r !! stat) ∧ ¬ is_str (r !! "Population")) →
  continent_stats cont data stat
  = select_level cont
      ((λ k, (k, weighted_mean stat
                   (filter (λ r, group_key "cont_code" "Year" r = Some k)
                      (filter (λ r, Forall (λ c, is_Some (r !! c)) [stat; "Population"])
                         (rows data)))))
         <$> merge_sort key_le
               (remove_dups
                  (omap (group_key "cont_code" "Year")
                     (filter (λ r, Forall (λ c, is_Some (r !! c)) [stat; "Population"])
                        (rows data))))).
Proof.
  intros Hstat Hpop Hcont HYear Hnum. unfold continent_stats.
  rewrite dropna_present by (repeat constructor; done). rewrite ok_bind.
  unfold groupby_apply. cbn [columns rows]. rewrite !decide_True by done.
  rewrite (forM_fmap _ (λ k, (k, weighted_mean stat
              (filter (λ r, group_key "cont_code" "Year" r = Some k)
                 (filter (λ r, Forall (λ c, is_Some (r !! c)) [stat; "Population"])
                    (rows data)))))); [done|].
  intros k _. rewrite wavg_numeric; [done..|].
  apply Forall_forall. intros r [_ Hr]%list_elem_of_filter.
  apply list_elem_of_filter in Hr as [Hsome Hr].
  apply Forall_cons in Hsome as [[m Hm] Hsome].
  apply Forall_cons in Hsome as [[q Hq] _].
  destruct (Hnum r Hr) as [Hm' Hq']. unfold numeric.
  rewrite Hm, Hq in *. by destruct m, q.
Qed.



(** X14: a continent that has no row with both the metric and the
    population is not an empty series but a [KeyError] of the
    continent code. *)
Theorem continent_stats_no_rows cont data stat :
  stat ∈ columns data → "Population" ∈ columns data →
  "cont_code" ∈ columns data → "Year" ∈ columns data →
  (∀ r, r ∈ rows data → ¬ is_str (r !! stat) ∧ ¬ is_str (r !! "Population")) →
  (∀ year, continent_group cont year stat data = []) →
  continent_stats cont data stat = Raise (KeyError cont).
Proof.
  intros Hstat Hpop Hcont HYear Hnum Hnone.
  rewrite continent_stats_select by done. unfold select_level.
  rewrite filter_none_in; [done|].
  rewrite Forall_fmap. apply Forall_forall. intros [c y] Hk. simpl. intros ->.
  apply group_keys_elem in Hk. by rewrite grouped_rows, Hnone in Hk.
Qed.

Lemma continent_stats_no_rows_witness :
  continent_stats "AS" two_countries "GDP" = Raise (KeyError "AS").
Proof.
  apply continent_stats_no_rows.
  - compute_done.
  - compute_done.
  - compute_done.
  - compute_done.
  - apply Forall_forall. compute_done.
  - intros year. unfold continent_group. apply filter_none_in. simpl.
    apply Forall_cons_2; [|apply Forall_cons_2; [|apply Forall_nil_2]];
      intros (_ & Hcont & _); vm_compute in Hcont; discriminate.
Defined.

(** ** Country series: the order of the panel's rows, failures *)

Lemma existsb_Permutation {A} (f : A → bool) (l1 l2 : list A) :
  l1 ≡ₚ l2 → existsb f l1 = existsb f l2.
Proof.
  induction 1 as [|x l1 l2 _ IH|x y l|l1 l2 l3 _ IH1 _ IH2]; simpl.
  - done.
  - by rewrite IH.
  - by destruct (f x), (f y).
  - by rewrite IH1.
Qed.

Lemma comparable_Permutation (l1 l2 : list cell) :
  l1 ≡ₚ l2 → comparable l1 = comparable l2.
Proof.
  intros Hperm. unfold comparable.
  by rewrite (existsb_Permutation is_num _ _ Hperm), (existsb_Permutation is_str _ _ Hperm).
Qed.

(** X15: for a panel with one row per country and year, the result of
    [country_stats] does not depend on the order of the rows of the
    panel. *)
Theorem country_stats_row_order code data1 data2 :
  columns data1 = columns data2 →
  rows data1 ≡ₚ rows data2 →
  NoDup ((λ r, (r !! "country_code", r !! "Year")) <$> rows data1) →
  country_stats code data1 = country_stats code data2.
Proof.
  intros Hcols Hperm Hnodup. unfold country_stats, getattr. rewrite <-Hcols.
  destruct (decide ("country_code" ∈ columns data1)); [|done].
  rewrite !ok_bind. unfold sort_values, select_eq. cbn [columns rows]. rewrite <-Hcols.
  destruct (decide ("Year" ∈ columns data1)); [|done].
  set (selected1 := filter (λ r, r !! "country_code" = Some code) (rows data1)).
  set (selected2 := filter (λ r, r !! "country_code" = Some code) (rows data2)).
  assert (Hselected : selected1 ≡ₚ selected2) by (unfold selected1, selected2; by rewrite Hperm).
  rewrite <-(comparable_Permutation ((.!! "Year") <$> selected1)
               ((.!! "Year") <$> selected2)) by (by rewrite Hselected).
  destruct (comparable _); [|done].
  assert (merge_sort (λ r1 r2, cell_le (r1 !! "Year") (r2 !! "Year")) selected1
          = merge_sort (λ r1 r2, cell_le (r1 !! "Year") (r2 !! "Year")) selected2) as ->;
    [|done].
  apply (StronglySorted_unique_strong (λ r1 r2 : row, cell_le (r1 !! "Year") (r2 !! "Year"))).
  - intros r1 r2 Hr1 Hr2 Hle Hge.
    rewrite merge_sort_Permutation in Hr1, Hr2.
    apply list_elem_of_filter in Hr1 as [Hc1 Hr1].
    apply list_elem_of_filter in Hr2 as [Hc2 Hr2]. rewrite <-Hperm in Hr2.
    apply (NoDup_fmap_elem_inj (λ r, (r !! "country_code", r !! "Year")) (rows data1));
      [done..|].
    f_equal; [congruence|]. by apply cell_le_antisym.
  - apply StronglySorted_merge_sort.
    + intros r1 r2 r3. apply cell_le_trans.
    + intros r1 r2. apply cell_le_total.
  - apply StronglySorted_merge_sort.
    + intros r1 r2 r3. apply cell_le_trans.
    + intros r1 r2. apply cell_le_total.
  - by rewrite !merge_sort_Permutation.
Qed.

Definition nordic_panel_reordered : DataFrame :=
  {| columns := ["country_code"; "Year"; "Population"];
     rows := [ {[ "country_code" := VStr "SE"; "Year" := num 2000; "Population" := num 9 ]};
               {[ "country_code" := VStr "FI"; "Year" := num 2000; "Population" := num 5 ]};
               {[ "country_code" := VStr "FI"; "Year" := num 2001; "Population" := num 5 ]} ] |}.

Lemma country_stats_row_order_witness :
  country_stats "FI" nordic_panel = country_stats "FI" nordic_panel_reordered.
Proof.
  apply country_stats_row_order.
  - reflexivity.
  - simpl. rewrite (Permutation_swap _ _ _). apply Permutation_skip, Permutation_swap.
  - compute_done.
Defined.

(** X16: what [country_stats] raises.  Without a column [country_code]
    it is an [AttributeError], whether there is a column [Year] or not;
    with it and without [Year] a [KeyError]; and when the rows of the
    requested country hold both a number and a string as year, the sort
    is a [TypeError]. *)
Theorem country_stats_failures code data :
  ("country_code" ∉ columns data →
   country_stats code data = Raise (AttributeError "country_code")) ∧
  ("country_code" ∈ columns data → "Year" ∉ columns data →
   country_stats code data = Raise (KeyError "Year")) ∧
  (∀ r1 r2 q s,
     "country_code" ∈ columns data → "Year" ∈ columns data →
     r1 ∈ rows data → r1 !! "country_code" = Some code → r1 !! "Year" = Some (VNum q) →
     r2 ∈ rows data → r2 !! "country_code" = Some code → r2 !! "Year" = Some (VStr s) →
     country_stats code data = Raise TypeError).
Proof.
  unfold country_stats, getattr. split_and!.
  - intros Hcode. by rewrite decide_False.
  - intros Hcode HYear. rewrite decide_True by done. rewrite ok_bind.
    unfold sort_values. cbn [columns select_eq]. by rewrite decide_False.
  - intros r1 r2 q s Hcode HYear Hr1 Hc1 Hy1 Hr2 Hc2 Hy2.
    rewrite decide_True by done. rewrite ok_bind.
    unfold sort_values. cbn [columns rows select_eq]. rewrite decide_True by done.
    assert (comparable ((.!! "Year") <$> filter (λ r, r !! "country_code" = Some code)
                                           (rows data)) = false) as ->; [|done].
    unfold comparable. apply negb_false_iff, andb_true_iff. split.
    + apply existsb_exists. exists (Some (VNum q)). split; [|done].
      apply list_elem_of_In, list_elem_of_fmap. exists r1. split; [done|].
      by apply list_elem_of_filter.
    + apply existsb_exists. exists (Some (VStr s)). split; [|done].
      apply list_elem_of_In, list_elem_of_fmap. exists r2. split; [done|].
      by apply list_elem_of_filter.
Qed.

Definition mixed_years : DataFrame :=
  {| columns := ["country_code"; "Year"];
     rows := [ {[ "country_code" := VStr "FI"; "Year" := num 2000 ]};
               {[ "country_code" := VStr "FI"; "Year" := VStr "2001" ]} ] |}.

Lemma country_stats_failures_witness :
  country_stats "FI" no_countries = Raise (AttributeError "country_code") ∧
  country_stats "FI" empty_panel = Raise (KeyError "Year") ∧
  country_stats "FI" mixed_years = Raise TypeError.
Proof.
  split_and!.
  - apply (proj1 (country_stats_failures "FI" no_countries)). compute_done.
  - apply (proj1 (proj2 (country_stats_failures "FI" empty_panel))); compute_done.
  - apply (proj2 (proj2 (country_stats_failures "FI" mixed_years))
             {[ "country_code" := VStr "FI"; "Year" := num 2000 ]}
             {[ "country_code" := VStr "FI"; "Year" := VStr "2001" ]}
             (Qc_of_Z 2000) "2001"); compute_done.
Defined.

(** ** Bar chart on a table with cells *)

Lemma emit_Ok {A} (g : A → result event) (f : A → event) (l : list A) :
  (∀ x, g x = Ok (f x)) → emit (g <$> l) = (f <$> l, Ok ()).
Proof.
  intros Hg. induction l as [|x l IH]; [done|].
  rewrite !fmap_cons. cbn [emit]. by rewrite Hg, IH.
Qed.

(** [max] of a column without strings: the largest number of the
    column, NaN when the column has no number. *)
Lemma max_series_largest (l : list cell) :
  Forall (λ c, ¬ is_str c) l →
  (∃ m, max_series l = Ok (Some (VNum m)) ∧ Some (VNum m) ∈ l ∧
        ∀ q, Some (VNum q) ∈ l → (q ≤ m)%Qc) ∨
  (max_series l = Ok None ∧ ∀ q, Some (VNum q) ∉ l).
Proof.
  induction 1 as [|c l Hc _ IH].
  - right. split; [done|]. intros q Hq. by inv Hq.
  - destruct c as [[x|s]|]; [|by destruct Hc|]; cbn [max_series].
    + left. destruct IH as [(m & -> & Hm & Hmax)|[-> Hnone]]; rewrite ok_bind.
      * destruct (decide (x ≤ m)%Qc) as [Hle|Hgt].
        -- exists m. split_and!; [done|by right|].
           intros q [[= ->]|Hq]%elem_of_cons; [done|by apply Hmax].
        -- exists x. split_and!; [done|by left|].
           intros q [[= ->]|Hq]%elem_of_cons; [apply Qcle_refl|].
           apply Qcnot_le_lt, Qclt_le_weak in Hgt.
           by apply (Qcle_trans _ m); [apply Hmax|].
      * exists x. split_and!; [done|by left|].
        intros q [[= ->]|Hq]%elem_of_cons; [apply Qcle_refl|]. by destruct (Hnone q).
    + destruct IH as [(m & -> & Hm & Hmax)|[-> Hnone]]; [left|right].
      * exists m. split_and!; [done|by right|].
        intros q [?|Hq]%elem_of_cons; [done|by apply Hmax].
      * split; [done|]. intros q [?|Hq]%elem_of_cons; [done|by apply (Hnone q)].
Qed.


Definition two_bars : DataFrame → string → list patch :=
  λ _ _, [ mkPatch (Qc_of_Z 10) (Qc_of_Z 1) (Qc_of_Z 0);
           mkPatch (Qc_of_Z 20) (Qc_of_Z 1) (Qc_of_Z 1) ].


(** ** The renderer monad *)

Lemma action_bind_ok {E A B} (es : list E) (a : A) (f : A → action E B) :
  (es, inr a) ≫= f = (es ++ (f a).1, (f a).2).
Proof. unfold mbind, action_bind. by destruct (f a). Qed.

Lemma lift_Ok {E A B} (a : A) (f : A → action E B) : lift (Ok a) ≫= f = f a.
Proof. unfold lift. rewrite action_bind_ok. by destruct (f a). Qed.

Lemma call_then {E B} (e : E) (k : action E B) : (call e ;; k) = (e :: k.1, k.2).
Proof. unfold call. by rewrite action_bind_ok. Qed.

(** A loop whose body makes its calls and goes on. *)
Lemma for_each_calls {E A} (f : A → action E ()) (es : A → list E) (l : list A) :
  (∀ x, x ∈ l → f x = (es x, inr ())) →
  for_each f l = (mjoin (es <$> l), inr ()).
Proof.
  induction l as [|x l IH]; intros Hf; [done|].
  cbn [for_each]. rewrite (Hf x) by left. rewrite action_bind_ok, IH.
  - done.
  - intros y Hy. apply Hf. by right.
Qed.

Lemma join_singletons {A B} (h : A → B) (l : list A) :
  mjoin ((λ x, [h x]) <$> l) = h <$> l.
Proof. induction l as [|x l IH]; [done|]. cbn. by rewrite <-IH. Qed.

(** ** Grid of regression plots *)

(** The cell of the three-column grid with number [k], counting row by
    row. *)
Definition grid_cell (k : nat) : nat * nat := (k / 3, k mod 3)%nat.

Lemma grid_cell_hidden (n t : nat) :
  (n mod 3 + t < 3)%nat → ((n / 3)%nat, (n mod 3 + t)%nat) = grid_cell (n + t).
Proof.
  intros Ht. unfold grid_cell.
  pose proof (Nat.div_mod_eq n 3) as Hn.
  f_equal.
  - apply (Nat.div_unique (n + t) 3 (n / 3) (n mod 3 + t)); lia.
  - apply (Nat.mod_unique (n + t) 3 (n / 3) (n mod 3 + t)); lia.
Qed.

Lemma hidden_cells (n : nat) :
  (λ j, ((n / 3)%nat, j)) <$> seq (n mod 3) (3 - n mod 3)
  = grid_cell <$> seq n (3 - n mod 3).
Proof.
  apply list_eq. intros t. rewrite !list_lookup_fmap.
  destruct (decide (t < 3 - n mod 3)%nat) as [Ht|Ht].
  - rewrite !lookup_seq_lt by done. cbn. f_equal. apply grid_cell_hidden. lia.
  - by rewrite !lookup_seq_ge by lia.
Qed.

Lemma grid_rows (n : nat) : (n + (3 - n mod 3) = 3 * (n / 3 + 1))%nat.
Proof.
  pose proof (Nat.div_mod_eq n 3). pose proof (Nat.mod_upper_bound n 3). lia.
Qed.

Lemma axes_item_grid (nrows i j : nat) :
  (nrows ≠ 1)%nat → (i < nrows)%nat → (j < 3)%nat →
  axes_item (subplots_axes nrows 3) i j = Ok (i, j).
Proof.
  intros Hrows Hi Hj. unfold subplots_axes.
  rewrite decide_False by done. rewrite decide_False by done.
  cbn [axes_item]. by rewrite decide_True.
Qed.



(** X19: with fewer than three predictors the grid has one row, which
    matplotlib hands out as a one-dimensional array: the first access
    to a cell by row and column fails, before anything is drawn or
    hidden. *)
Theorem plot_multi_predictors_single_row data response predictors :
  (length predictors < 3)%nat →
  plot_multi_predictors data response predictors
  = ([GridSubplots 1 3 20 20; GridAdjust (Q2Qc (4 # 10))], inl (Exception IndexError)).
Proof.
  intros Hlen.
  destruct predictors as [|p1 [|p2 [|p3 rest]]]; [done..|].
  cbn in Hlen. lia.
Qed.

Lemma plot_multi_predictors_single_row_witness :
  plot_multi_predictors two_countries "Life expectancy" ["GDP"; "Population"]
  = ([GridSubplots 1 3 20 20; GridAdjust (Q2Qc (4 # 10))], inl (Exception IndexError)).
Proof.
  apply (plot_multi_predictors_single_row two_countries "Life expectancy" ["GDP"; "Population"]).
  cbn. lia.
Defined.

(** ** Two-line chart *)

Lemma list_item_0 {A} (x : A) (l : list A) : list_item (x :: l) 0 = Ok x.
Proof. done. Qed.

Lemma list_item_1 {A} (x y : A) (l : list A) : list_item (x :: y :: l) 1 = Ok y.
Proof. done. Qed.

Lemma dict_item_in (d : list (string * string)) (k : string) :
  k ∈ d.*1 → ∃ v, dict_item d k = Ok v ∧ (k, v) ∈ d.
Proof.
  intros ([k' v] & -> & Hin)%list_elem_of_fmap. unfold dict_item.
  destruct (list_find (λ entry, entry.1 = (k', v).1) d) as [[i [k'' v']]|] eqn:Hfind.
  - apply list_find_Some in Hfind as (Hi & Hk & _). cbn in Hk. subst k''.
    exists v'. split; [done|]. by eapply list_elem_of_lookup_2.
  - apply list_find_None in Hfind. rewrite Forall_forall in Hfind.
    by destruct (Hfind _ Hin).
Qed.

(** X20: the mapping of the countries is asked first: for a code it
    knows, the other mappings are not looked at, and need not even be
    there. *)
Theorem plot_area_country_first data (code : string) metrics countries others others' years :
  code ∈ countries.*1 →
  plot_area data code metrics (countries :: others) years
  = plot_area data code metrics (countries :: others') years.
Proof.
  intros Hcode. unfold plot_area.
  rewrite !list_item_0, !lift_Ok. by rewrite !decide_True by done.
Qed.

Lemma plot_area_country_first_witness :
  plot_area nordic_panel "FI" ["Population"; "Population"]
            [nordic_codes; [("FI", "Fiji")]] [2000; 2001]%Z
  = plot_area nordic_panel "FI" ["Population"; "Population"] [nordic_codes] [2000; 2001]%Z.
Proof.
  apply (plot_area_country_first nordic_panel "FI" ["Population"; "Population"]
           nordic_codes [[("FI", "Fiji")]] [] [2000; 2001]%Z).
  compute_done.
Defined.

(** X21: a code that neither mapping knows leaves both series
    unassigned.  The figure and its axes are still set up; the renderer
    then fails on reading the first series, an [UnboundLocalError], or
    already on the first metric when there is none.  Nothing is drawn
    and the figure is never shown. *)
Theorem plot_area_unknown_code data (code : string) metrics countries continents more years :
  code ∉ countries.*1 → code ∉ continents.*1 →
  plot_area data code metrics (countries :: continents :: more) years
  = match metrics with
    | [] => ([ AreaFigure 9 5; AreaAddSubplot 111; AreaGrid false false;
               AreaXlabel "Year" ],
             inl (Exception IndexError))
    | m0 :: _ => ([ AreaFigure 9 5; AreaAddSubplot 111; AreaGrid false false;
                    AreaXlabel "Year"; AreaYlabel m0 ],
                  inl (UnboundLocalError "data1"))
    end.
Proof.
  intros Hcountries Hcontinents. unfold plot_area.
  rewrite list_item_0, lift_Ok. rewrite decide_False by done.
  rewrite list_item_1, lift_Ok. rewrite decide_False by done.
  by destruct metrics.
Qed.

Lemma plot_area_unknown_code_witness :
  plot_area nordic_panel "DK" ["Population"; "GDP"] [nordic_codes; [("EU", "Europe")]]
            [2000; 2001]%Z
  = ([ AreaFigure 9 5; AreaAddSubplot 111; AreaGrid false false;
       AreaXlabel "Year"; AreaYlabel "Population" ],
     inl (UnboundLocalError "data1")).
Proof.
  apply (plot_area_unknown_code nordic_panel "DK" ["Population"; "GDP"]
           nordic_codes [("EU", "Europe")] [] [2000; 2001]%Z); compute_done.
Defined.




